(** * Booking wizard with offline queue (src/pages/Booking.tsx)

    A shallow embedding of the booking page of smart-move-navigator: the
    wizard state held in React state ([step], [booking], [isSubmitted]),
    the handlers [calculatePrice], [canProceed], [handleSubmit], the
    offline-sync effect, and the browser facilities they use
    ([localStorage], [JSON.parse], [JSON.stringify], [console.log]).

    Modelling choices.
    - A JavaScript string is its sequence of UTF-16 code units, [list N].
    - A JavaScript number is modelled by an integer [Z]: every number the
      page computes with is a whole number (the duration selector offers
      1..24 and prices are whole amounts per hour).  The model is exact
      for the safe integers, of magnitude at most 2^53 - 1.  Fractions,
      exponents, negative zero and larger integers in a stored text are
      reported as [Unmodelled] by the parser instead of being given a
      wrong meaning.
    - A [Date] is its time value in milliseconds; [toISOString] is the
      built-in, kept abstract.
    - [localStorage] is a finite map from keys to texts, without quota. *)

From Stdlib Require Import ZArith NArith Lia Bool Decimal DecimalN DecimalPos DecimalZ.
From Stdlib Require Import String Ascii.
From stdpp Require Import base option list gmap.

Set Warnings "-register-all".
Local Open Scope N_scope.

(** ** Strings as UTF-16 code units *)

(** The code units of an ASCII literal of the source text. *)
Definition lit (s : string) : list N :=
  List.map N_of_ascii (list_ascii_of_string s).

(** ** Outcomes of JavaScript computations *)

Inductive JsError : Type :=
| SyntaxError
| TypeError.

(** [Throw] is a JavaScript exception; [Unmodelled] marks an input that
    lies outside the fragment of the language this development gives a
    meaning to. *)
Inductive outcome (A : Type) : Type :=
| Ok (a : A)
| Throw (e : JsError)
| Unmodelled.

Arguments Ok {A} a.
Arguments Throw {A} e.
Arguments Unmodelled {A}.

Definition obind {A B : Type} (m : outcome A) (k : A -> outcome B) : outcome B :=
  match m with
  | Ok a => k a
  | Throw e => Throw e
  | Unmodelled => Unmodelled
  end.

Declare Scope outcome_scope.
Delimit Scope outcome_scope with outcome.
Notation "'let*' x ':=' m 'in' k" :=
  (obind m (fun x => k))
  (at level 10, x name, m at level 100, k at level 200) : outcome_scope.
Notation "'let*' ( x , y ) ':=' m 'in' k" :=
  (obind m (fun xy => let '(x, y) := xy in k))
  (at level 10, x name, y name, m at level 100, k at level 200) : outcome_scope.

(** ** JavaScript values that occur on the page and in JSON texts *)

(** [Number.MAX_SAFE_INTEGER], 2^53 - 1. *)
Definition MAX_SAFE_INTEGER : Z := 9007199254740991.

(** [Number.isSafeInteger] on the integers of the model. *)
Definition is_safe (z : Z) : bool :=
  (- MAX_SAFE_INTEGER <=? z)%Z && (z <=? MAX_SAFE_INTEGER)%Z.

Inductive value : Type :=
| VUndefined
| VNull
| VBool (b : bool)
| VNum (z : Z)
| VStr (s : list N)
| VArr (items : list value)
| VObj (props : list (list N * value)).

(** Property read [o.k]: own properties of a plain object, in order. *)
Fixpoint obj_get (k : list N) (props : list (list N * value)) : option value :=
  match props with
  | [] => None
  | (k', v) :: rest => if decide (k' = k) then Some v else obj_get k rest
  end.

(** Property write as done by object construction in [JSON.parse]: an
    existing key keeps its position and takes the new value, a new key is
    added at the end. *)
Fixpoint obj_set (k : list N) (v : value) (props : list (list N * value))
  : list (list N * value) :=
  match props with
  | [] => [(k, v)]
  | (k', v') :: rest =>
      if decide (k' = k) then (k', v) :: rest else (k', v') :: obj_set k v rest
  end.

(** [o.k] for a plain object [o] with the own properties [props] and a
    name [k] that [Object.prototype] does not define: the own property,
    or [undefined]. *)
Definition read (k : list N) (props : list (list N * value)) : value :=
  default VUndefined (obj_get k props).

Module JSON.

(** *** Code-unit classes *)

Definition is_ws (c : N) : bool :=
  (c =? 9) || (c =? 10) || (c =? 13) || (c =? 32).

Definition is_digit (c : N) : bool := (48 <=? c) && (c <=? 57).

Definition is_high (c : N) : bool := (55296 <=? c) && (c <=? 56319).

Definition is_low (c : N) : bool := (56320 <=? c) && (c <=? 57343).

(** *** QuoteJSONString *)

Definition hex_digit (n : N) : N := if n <? 10 then 48 + n else 87 + n.

(** UnicodeEscape: backslash, u, four lower-case hexadecimal digits. *)
Definition unicode_escape (c : N) : list N :=
  [92; 117; hex_digit (c / 4096); hex_digit ((c / 256) mod 16);
   hex_digit ((c / 16) mod 16); hex_digit (c mod 16)].

(** One code point that is a single code unit: the two-character escapes
    of the table, a unicode escape for the other control characters and
    for a surrogate that has no partner, the unit itself otherwise. *)
Definition quote_one (c : N) : list N :=
  if c =? 8 then [92; 98]
  else if c =? 9 then [92; 116]
  else if c =? 10 then [92; 110]
  else if c =? 12 then [92; 102]
  else if c =? 13 then [92; 114]
  else if c =? 34 then [92; 34]
  else if c =? 92 then [92; 92]
  else if (c <? 32) || is_high c || is_low c then unicode_escape c
  else [c].

(** A leading surrogate followed by a trailing one is one code point and
    is copied; every other unit goes through [quote_one]. *)
Fixpoint quote_units (s : list N) : list N :=
  match s with
  | [] => []
  | c :: r =>
      match r with
      | d :: r' =>
          if is_high c && is_low d then c :: d :: quote_units r'
          else quote_one c ++ quote_units r
      | [] => quote_one c
      end
  end.

Definition quote (s : list N) : list N := 34 :: quote_units s ++ [34].

(** *** Number::toString for integers *)

Fixpoint uint_units (u : Decimal.uint) : list N :=
  match u with
  | Nil => []
  | D0 u => 48 :: uint_units u
  | D1 u => 49 :: uint_units u
  | D2 u => 50 :: uint_units u
  | D3 u => 51 :: uint_units u
  | D4 u => 52 :: uint_units u
  | D5 u => 53 :: uint_units u
  | D6 u => 54 :: uint_units u
  | D7 u => 55 :: uint_units u
  | D8 u => 56 :: uint_units u
  | D9 u => 57 :: uint_units u
  end.

Definition number_text (z : Z) : list N :=
  match z with
  | Z0 => [48]
  | Zpos p => uint_units (Pos.to_uint p)
  | Zneg p => 45 :: uint_units (Pos.to_uint p)
  end.

(** *** JSON.stringify (no replacer, no indentation) *)

Fixpoint join_comma (parts : list (list N)) : list N :=
  match parts with
  | [] => []
  | [p] => p
  | p :: rest => p ++ 44 :: join_comma rest
  end.

(** SerializeJSONProperty; [None] is the result [undefined]. *)
Fixpoint serialize (v : value) : option (list N) :=
  match v with
  | VUndefined => None
  | VNull => Some (lit "null")
  | VBool true => Some (lit "true")
  | VBool false => Some (lit "false")
  | VNum z => Some (number_text z)
  | VStr s => Some (quote s)
  | VArr items =>
      let parts :=
        (fix elems (l : list value) : list (list N) :=
           match l with
           | [] => []
           | x :: l' => default (lit "null") (serialize x) :: elems l'
           end) items in
      Some (91 :: join_comma parts ++ [93])
  | VObj props =>
      let parts :=
        (fix members (l : list (list N * value)) : list (list N) :=
           match l with
           | [] => []
           | (k, x) :: l' =>
               match serialize x with
               | Some t => (quote k ++ 58 :: t) :: members l'
               | None => members l'
               end
           end) props in
      Some (123 :: join_comma parts ++ [125])
  end.

Definition stringify (v : value) : option (list N) := serialize v.

(** *** JSON.parse *)

Fixpoint skip_ws (s : list N) : list N :=
  match s with
  | c :: r => if is_ws c then skip_ws r else s
  | [] => []
  end.

Definition hex_val (c : N) : option N :=
  if (48 <=? c) && (c <=? 57) then Some (c - 48)
  else if (97 <=? c) && (c <=? 102) then Some (c - 87)
  else if (65 <=? c) && (c <=? 70) then Some (c - 55)
  else None.

Definition hex4 (a b c d : N) : option N :=
  match hex_val a, hex_val b, hex_val c, hex_val d with
  | Some x, Some y, Some z, Some w => Some (4096 * x + 256 * y + 16 * z + w)
  | _, _, _, _ => None
  end.

Definition simple_escape (e : N) : option N :=
  if e =? 34 then Some 34
  else if e =? 92 then Some 92
  else if e =? 47 then Some 47
  else if e =? 98 then Some 8
  else if e =? 102 then Some 12
  else if e =? 110 then Some 10
  else if e =? 114 then Some 13
  else if e =? 116 then Some 9
  else None.

Local Open Scope outcome_scope.

(** The characters of a string literal after its opening quote, up to and
    including the closing quote. *)
Fixpoint parse_chars (s : list N) : outcome (list N * list N) :=
  match s with
  | [] => Throw SyntaxError
  | c :: r =>
      if c =? 34 then Ok ([], r)
      else if c =? 92 then
        match r with
        | [] => Throw SyntaxError
        | e :: r1 =>
            if e =? 117 then
              match r1 with
              | h1 :: h2 :: h3 :: h4 :: r2 =>
                  match hex4 h1 h2 h3 h4 with
                  | Some u =>
                      let* (str, rest) := parse_chars r2 in Ok (u :: str, rest)
                  | None => Throw SyntaxError
                  end
              | _ => Throw SyntaxError
              end
            else
              match simple_escape e with
              | Some u =>
                  let* (str, rest) := parse_chars r1 in Ok (u :: str, rest)
              | None => Throw SyntaxError
              end
        end
      else if c <? 32 then Throw SyntaxError
      else let* (str, rest) := parse_chars r in Ok (c :: str, rest)
  end.

Definition digit_cons (c : N) (u : Decimal.uint) : Decimal.uint :=
  if c =? 48 then D0 u else if c =? 49 then D1 u else if c =? 50 then D2 u
  else if c =? 51 then D3 u else if c =? 52 then D4 u else if c =? 53 then D5 u
  else if c =? 54 then D6 u else if c =? 55 then D7 u else if c =? 56 then D8 u
  else D9 u.

Fixpoint read_digits (s : list N) : Decimal.uint * list N :=
  match s with
  | c :: r =>
      if is_digit c then
        let '(u, rest) := read_digits r in (digit_cons c u, rest)
      else (Nil, s)
  | [] => (Nil, [])
  end.

(** The integer part of a number: [0], or a non-zero digit followed by
    digits.  A fraction or an exponent after it is outside the model. *)
Definition parse_nat (s : list N) : outcome (N * list N) :=
  let '(u, rest) := read_digits s in
  let* n :=
    match u with
    | Nil => Throw SyntaxError
    | D0 Nil => Ok 0%N
    | D0 _ => Throw SyntaxError
    | _ => Ok (N.of_uint u)
    end in
  match rest with
  | c :: _ =>
      if (c =? 46) || (c =? 101) || (c =? 69) then Unmodelled else Ok (n, rest)
  | [] => Ok (n, rest)
  end.

Definition parse_number (s : list N) : outcome (Z * list N) :=
  match s with
  | c :: r =>
      if c =? 45 then
        let* (n, rest) := parse_nat r in
        if n =? 0 then Unmodelled else Ok (Z.opp (Z.of_N n), rest)
      else let* (n, rest) := parse_nat s in Ok (Z.of_N n, rest)
  | [] => Throw SyntaxError
  end.

(** A key made of digits only may be an array index, which an object
    lists before its other keys; such objects are outside the model. *)
Definition index_like (k : list N) : bool :=
  match k with
  | [] => false
  | _ => forallb is_digit k
  end.

Definition build_object (members : list (list N * value)) : list (list N * value) :=
  fold_left (fun o kv => obj_set (fst kv) (snd kv) o) members [].

Definition expect_literal (word : list N) (v : value) (s : list N)
  : outcome (value * list N) :=
  if decide (take (length word) s = word)
  then Ok (v, drop (length word) s)
  else Throw SyntaxError.

(** Does the text continue, after white space, with the character [c]?
    If so, what comes after it. *)
Definition accept (c : N) (s : list N) : option (list N) :=
  match skip_ws s with
  | c' :: rest => if c' =? c then Some rest else None
  | [] => None
  end.

(** Recursive descent over the JSON grammar.  [fuel] bounds the nesting of
    calls; running out of it is reported as [Unmodelled]. *)
Fixpoint parse_value (fuel : nat) (s : list N) : outcome (value * list N) :=
  match fuel with
  | O => Unmodelled
  | S fuel' =>
      match skip_ws s with
      | [] => Throw SyntaxError
      | c :: r =>
          if c =? 34 then
            let* (str, rest) := parse_chars r in Ok (VStr str, rest)
          else if c =? 91 then
            match accept 93 r with
            | Some rest => Ok (VArr [], rest)
            | None =>
                let* (items, rest) := parse_elements fuel' r in
                Ok (VArr items, rest)
            end
          else if c =? 123 then
            match accept 125 r with
            | Some rest => Ok (VObj [], rest)
            | None =>
                let* (members, rest) := parse_members fuel' r in
                if existsb (fun kv => index_like (fst kv)) members
                then Unmodelled
                else Ok (VObj (build_object members), rest)
            end
          else if c =? 110 then expect_literal (lit "null") VNull (c :: r)
          else if c =? 116 then expect_literal (lit "true") (VBool true) (c :: r)
          else if c =? 102 then expect_literal (lit "false") (VBool false) (c :: r)
          else if (c =? 45) || is_digit c then
            let* (z, rest) := parse_number (c :: r) in
            if is_safe z then Ok (VNum z, rest) else Unmodelled
          else Throw SyntaxError
      end
  end

with parse_elements (fuel : nat) (s : list N) : outcome (list value * list N) :=
  match fuel with
  | O => Unmodelled
  | S fuel' =>
      let* (v, r) := parse_value fuel' s in
      match accept 44 r with
      | Some r' =>
          let* (vs, rest) := parse_elements fuel' r' in Ok (v :: vs, rest)
      | None =>
          match accept 93 r with
          | Some rest => Ok ([v], rest)
          | None => Throw SyntaxError
          end
      end
  end

with parse_members (fuel : nat) (s : list N)
  : outcome (list (list N * value) * list N) :=
  match fuel with
  | O => Unmodelled
  | S fuel' =>
      match accept 34 s with
      | Some r0 =>
          let* (k, r1) := parse_chars r0 in
          match accept 58 r1 with
          | Some r2 =>
              let* (v, r3) := parse_value fuel' r2 in
              match accept 44 r3 with
              | Some r4 =>
                  let* (ms, rest) := parse_members fuel' r4 in
                  Ok ((k, v) :: ms, rest)
              | None =>
                  match accept 125 r3 with
                  | Some rest => Ok ([(k, v)], rest)
                  | None => Throw SyntaxError
                  end
              end
          | None => Throw SyntaxError
          end
      | None => Throw SyntaxError
      end
  end.

(** [JSON.parse(text)]: one value, surrounded by optional white space.
    Twice the length of the text leaves fuel for every bracket, brace and
    comma of it. *)
Definition parse (text : list N) : outcome value :=
  let* (v, rest) := parse_value (S (2 * length text)) text in
  match skip_ws rest with
  | [] => Ok v
  | _ => Throw SyntaxError
  end.

(** *** Notions used to state what the parser does *)

(** What may follow a value inside a text: nothing, a comma, or a closing
    bracket or brace. *)
Definition delimited (rest : list N) : Prop :=
  match rest with
  | [] => True
  | c :: _ => c = 44 \/ c = 93 \/ c = 125
  end.

Definition elem_text (x : value) : list N := default (lit "null") (serialize x).

Definition member_text (kv : list N * value) : option (list N) :=
  match serialize (snd kv) with
  | Some t => Some (quote (fst kv) ++ 58 :: t)
  | None => None
  end.

(** A serialized value begins with a character that only a value can
    begin with. *)
Definition starts_value (c : N) : bool :=
  (c =? 110) || (c =? 116) || (c =? 102) || (c =? 34) || (c =? 91)
  || (c =? 123) || (c =? 45) || is_digit c.

End JSON.

(** The values that a JSON text denotes in the model: no [undefined], safe
    integers, and in every object distinct keys none of which looks like
    an array index. *)
Inductive json_wf : value -> Prop :=
| wf_null : json_wf VNull
| wf_bool b : json_wf (VBool b)
| wf_num z : is_safe z = true -> json_wf (VNum z)
| wf_str s : json_wf (VStr s)
| wf_arr items : Forall json_wf items -> json_wf (VArr items)
| wf_obj props :
    NoDup (List.map fst props) ->
    Forall (fun kv => JSON.index_like (fst kv) = false) props ->
    Forall (fun kv => json_wf (snd kv)) props ->
    json_wf (VObj props).


(** What a value parser has to do on the text of one value. *)
Definition reads_back (x : value) : Prop :=
  forall t fuel rest,
    JSON.serialize x = Some t -> JSON.delimited rest -> (length t <= fuel)%nat ->
    JSON.parse_value fuel (t ++ rest) = Ok (x, rest).


(** ** The browser environment of the page *)

(** What the page does to its environment, in the order it does it. *)
Inductive Event : Type :=
| EGetItem (key : list N)
| ESetItem (key text : list N)
| EConsoleLog (args : list value).

Record World : Type := mkWorld {
  storage : gmap (list N) (list N);
  events : list Event
}.

(** A handler: it may read and change the environment, and it returns, throws
    or leaves the model. *)
Definition M (A : Type) : Type := World -> outcome A * World.

Definition ret {A : Type} (a : A) : M A := fun w => (Ok a, w).

Definition lift {A : Type} (o : outcome A) : M A := fun w => (o, w).

Definition bind {A B : Type} (m : M A) (k : A -> M B) : M B :=
  fun w =>
    match m w with
    | (Ok a, w') => k a w'
    | (Throw e, w') => (Throw e, w')
    | (Unmodelled, w') => (Unmodelled, w')
    end.

Declare Scope world_scope.
Delimit Scope world_scope with world.
Notation "'let!' x ':=' m 'in' k" := (bind m (fun x => k))
  (at level 10, x name, m at level 100, k at level 200) : world_scope.
Notation "'exec' m 'in' k" := (bind m (fun _ => k))
  (at level 10, m at level 100, k at level 200) : world_scope.

Module localStorage.

Definition getItem (key : list N) : M (option (list N)) :=
  fun w => (Ok (storage w !! key),
            mkWorld (storage w) (events w ++ [EGetItem key])).

Definition setItem (key text : list N) : M unit :=
  fun w => (Ok tt,
            mkWorld (<[key := text]> (storage w)) (events w ++ [ESetItem key text])).

End localStorage.

Module console.

Definition log (args : list value) : M unit :=
  fun w => (Ok tt, mkWorld (storage w) (events w ++ [EConsoleLog args])).

End console.

(** [raw || '[]']: [null] and the empty string are falsy. *)
Definition or_empty_array (raw : option (list N)) : list N :=
  match raw with
  | None => lit "[]"
  | Some [] => lit "[]"
  | Some text => text
  end.

(** [pending.push(x)]: only an array has a [push] method among the values
    that [JSON.parse] returns. *)
Definition push (pending x : value) : outcome value :=
  match pending with
  | VArr items => Ok (VArr (items ++ [x]))
  | _ => Throw TypeError
  end.

(** [pending.length > 0].  [undefined > 0] and [null > 0] are false,
    [true > 0] is true; comparing a string or an object with a number
    goes through ToNumber, which is outside the model. *)
Definition length_positive (pending : value) : outcome bool :=
  match pending with
  | VArr items => Ok (bool_decide (items <> []))
  | VStr s => Ok (bool_decide (s <> []))
  | VNum _ | VBool _ => Ok false
  | VNull | VUndefined => Throw TypeError
  | VObj props =>
      match obj_get (lit "length") props with
      | None | Some VUndefined | Some VNull => Ok false
      | Some (VNum n) => Ok (0 <? n)%Z
      | Some (VBool b) => Ok b
      | Some (VStr _) | Some (VArr _) | Some (VObj _) => Unmodelled
      end
  end.

(** ** The catalog entry and the draft *)

Module Car.

(** The fields of a catalog entry that the booking page reads. *)
Record t : Type := mk {
  id : list N;
  name : list N;
  pricePerHour : Z
}.

End Car.

#[global] Instance car_eq_dec : EqDecision Car.t.
Proof. solve_decision. Defined.

Definition STEPS : list (list N) :=
  [lit "selectCar"; lit "enterLocation"; lit "selectDateTime"; lit "confirm"].

Record BookingData : Type := mkBookingData {
  carId : list N;
  pickupLocation : list N;
  dropoffLocation : list N;
  date : option Z;
  time : list N;
  duration : Z
}.

(** The three pieces of React state of the [Booking] component. *)
Record BookingState : Type := mkState {
  step : Z;
  booking : BookingData;
  isSubmitted : bool
}.

Definition setStep (n : Z) (st : BookingState) : BookingState :=
  mkState n (booking st) (isSubmitted st).

Definition setBooking (b : BookingData) (st : BookingState) : BookingState :=
  mkState (step st) b (isSubmitted st).

Definition setIsSubmitted (v : bool) (st : BookingState) : BookingState :=
  mkState (step st) (booking st) v.

(** [!!s] for a string. *)
Definition truthy (s : list N) : bool := negb (bool_decide (s = [])).

(** State on mount: [carId] is [searchParams.get('car') || '']. *)
Definition initial (carParam : option (list N)) : BookingState :=
  mkState 0
    (mkBookingData (default [] carParam) [] [] None [] 1)
    false.

Definition pendingBookings : list N := lit "pendingBookings".

(** The text of an array whose elements are [q], as [JSON.stringify]
    writes it. *)
Definition queue_text (q : list value) : list N :=
  91 :: JSON.join_comma (List.map JSON.elem_text q) ++ [93].

(** What [JSON.stringify] keeps of an object: the properties whose value is
    not [undefined]. *)
Definition is_undefined (v : value) : bool :=
  match v with
  | VUndefined => true
  | _ => false
  end.

Definition drop_undefined (v : value) : value :=
  match v with
  | VObj props => VObj (List.filter (fun kv => negb (is_undefined (snd kv))) props)
  | _ => v
  end.

Section BookingPage.

(** The catalog [cars], imported from src/data/cars, and the built-in
    [Date.prototype.toISOString] on the time values of valid dates, the
    only ones the calendar gives. *)
Variable cars : list Car.t.
Variable toISOString : Z -> list N.

(** Modelled from the spec: [getCarById] of src/data/cars is missing; the
    catalog interface is "getVehicle(id) -> Vehicle | not found", the entry
    of the catalog with that identifier. *)
Definition getCarById (i : list N) : option Car.t :=
  List.find (fun c => bool_decide (Car.id c = i)) cars.

Definition selectedCar (b : BookingData) : option Car.t :=
  if truthy (carId b) then getCarById (carId b) else None.

Definition calculatePrice (b : BookingData) : Z :=
  match selectedCar b with
  | None => 0
  | Some car => Car.pricePerHour car * duration b
  end.

Definition canProceed (st : BookingState) : bool :=
  if (step st =? 0)%Z then truthy (carId (booking st))
  else if (step st =? 1)%Z then
    truthy (pickupLocation (booking st)) && truthy (dropoffLocation (booking st))
  else if (step st =? 2)%Z then
    bool_decide (is_Some (date (booking st))) && truthy (time (booking st))
    && (0 <? duration (booking st))%Z
  else true.

(** The object literal built by [handleSubmit]: the draft's properties in
    their order, [date] replaced by its ISO text (or [undefined]), then
    [price] and [createdAt]. *)
Definition bookingProps (now : Z) (b : BookingData) : list (list N * value) :=
  [ (lit "carId", VStr (carId b));
    (lit "pickupLocation", VStr (pickupLocation b));
    (lit "dropoffLocation", VStr (dropoffLocation b));
    (lit "date", match date b with
                 | Some d => VStr (toISOString d)
                 | None => VUndefined
                 end);
    (lit "time", VStr (time b));
    (lit "duration", VNum (duration b));
    (lit "price", VNum (calculatePrice b));
    (lit "createdAt", VStr (toISOString now)) ].

Definition bookingData (now : Z) (b : BookingData) : value :=
  VObj (bookingProps now b).

Local Open Scope world_scope.

(** [isOnline] is the reading of [useOnlineStatus] at the render whose
    handler runs; [now] is the clock reading of [new Date()]. *)
Definition handleSubmit (isOnline : bool) (now : Z) (st : BookingState)
  : M BookingState :=
  let data := bookingData now (booking st) in
  exec (if negb isOnline then
          let! raw := localStorage.getItem pendingBookings in
          let! pending := lift (JSON.parse (or_empty_array raw)) in
          let! pending' := lift (push pending data) in
          localStorage.setItem pendingBookings
            (default (lit "undefined") (JSON.stringify pending'))
        else ret tt) in
  ret (setIsSubmitted true st).

(** The body of the offline-sync effect, run after mount and after every
    render in which [isOnline] has changed. *)
Definition syncEffect (isOnline : bool) : M unit :=
  if isOnline then
    let! raw := localStorage.getItem pendingBookings in
    let! pending := lift (JSON.parse (or_empty_array raw)) in
    let! nonempty := lift (length_positive pending) in
    if (nonempty : bool) then
      exec console.log [VStr (lit "Syncing pending bookings:"); pending] in
      localStorage.setItem pendingBookings (lit "[]")
    else ret tt
  else ret tt.

(** *** The buttons of the wizard

    While [isSubmitted] holds the component renders the success screen
    only, so none of the wizard's controls exists. *)

(** "Next": rendered while [step < STEPS.length - 1], disabled unless
    [canProceed()]. *)
Definition advance (st : BookingState) : option BookingState :=
  if negb (isSubmitted st)
     && (step st <? Z.of_nat (length STEPS) - 1)%Z
     && canProceed st
  then Some (setStep (step st + 1) st)
  else None.

(** "Previous": rendered while [step > 0]. *)
Definition retreat (st : BookingState) : option BookingState :=
  if negb (isSubmitted st) && (0 <? step st)%Z
  then Some (setStep (step st - 1) st)
  else None.

(** "Confirm": rendered in place of "Next" on the last step. *)
Definition submit (isOnline : bool) (now : Z) (st : BookingState)
  : option (M BookingState) :=
  if negb (isSubmitted st)
     && negb (step st <? Z.of_nat (length STEPS) - 1)%Z
  then Some (handleSubmit isOnline now st)
  else None.

(** *** The input controls of the steps *)

(** The text of the [i]-th time option, two digits and ":00". *)
Definition time_option (i : N) : list N :=
  [48 + i / 10; 48 + i mod 10; 58; 48; 48].

Inductive Input : Type :=
| ClickCar (car : Car.t)
| TypePickup (text : list N)
| TypeDropoff (text : list N)
| SelectDate (day : option Z)
| SelectTime (i : N)
| SelectDuration (i : N)
| ClickNext
| ClickPrevious.

(** One user action on the rendered wizard; [None] when the control is not
    on the screen or is disabled.  The car buttons list [cars]; the
    calendar disables the days before [now] and gives [undefined] when the
    selected day is clicked again; the two selectors offer 24 options,
    the second one the durations [i + 1]. *)
Definition react (now : Z) (st : BookingState) (i : Input) : option BookingState :=
  let b := booking st in
  if isSubmitted st then None else
  match i with
  | ClickCar car =>
      if (step st =? 0)%Z && bool_decide (car ∈ cars)
      then Some (setBooking
                   (mkBookingData (Car.id car) (pickupLocation b) (dropoffLocation b)
                      (date b) (time b) (duration b)) st)
      else None
  | TypePickup text =>
      if (step st =? 1)%Z
      then Some (setBooking
                   (mkBookingData (carId b) text (dropoffLocation b)
                      (date b) (time b) (duration b)) st)
      else None
  | TypeDropoff text =>
      if (step st =? 1)%Z
      then Some (setBooking
                   (mkBookingData (carId b) (pickupLocation b) text
                      (date b) (time b) (duration b)) st)
      else None
  | SelectDate day =>
      if (step st =? 2)%Z
         && match day with Some d => negb (d <? now)%Z | None => true end
      then Some (setBooking
                   (mkBookingData (carId b) (pickupLocation b) (dropoffLocation b)
                      day (time b) (duration b)) st)
      else None
  | SelectTime i =>
      if (step st =? 2)%Z && (i <? 24)
      then Some (setBooking
                   (mkBookingData (carId b) (pickupLocation b) (dropoffLocation b)
                      (date b) (time_option i) (duration b)) st)
      else None
  | SelectDuration i =>
      if (step st =? 2)%Z && (i <? 24)
      then Some (setBooking
                   (mkBookingData (carId b) (pickupLocation b) (dropoffLocation b)
                      (date b) (time b) (Z.of_N i + 1)) st)
      else None
  | ClickNext => advance st
  | ClickPrevious => retreat st
  end.

(** The states of the wizard a user can bring about from the mounted page;
    each action happens at some clock reading. *)
Inductive reachable (carParam : option (list N)) : BookingState -> Prop :=
| reach_initial : reachable carParam (initial carParam)
| reach_react now st i st' :
    reachable carParam st -> react now st i = Some st' -> reachable carParam st'.

(** The numbers of the record lie within the safe integers, where the
    integer model of numbers is exact. *)
Definition numbers_in_model (b : BookingData) : Prop :=
  is_safe (duration b) = true /\ is_safe (calculatePrice b) = true.

(** The record as it sits in the store once written. *)
Definition stored_props (now : Z) (b : BookingData) : list (list N * value) :=
  List.filter (fun kv => negb (is_undefined (snd kv))) (bookingProps now b).

Definition stored_record (now : Z) (b : BookingData) : value :=
  VObj (stored_props now b).

(** The queue as any reader of the store sees it. *)
Definition read_queue (w : World) : outcome value :=
  JSON.parse (or_empty_array (storage w !! pendingBookings)).

End BookingPage.

(** Modelled from the spec: the answer of the Remote Booking API,
    "createBooking(record) -> success | rejected(reason) | unreachable".
    The page has no call to it; the type only serves to speak about what
    such a service would answer. *)
Inductive RemoteResult : Type :=
| Success
| Rejected (reason : list N)
| Unreachable.

(** *** A small catalog and a draft, for concrete runs *)

Definition demo_cars : list Car.t :=
  [Car.mk (lit "v1") (lit "Toyota RAV4") 20; Car.mk (lit "v2") (lit "Kia Rio") 12].

(** A stand-in for the built-in: the letter T and the time value. *)
Definition demo_iso (ms : Z) : list N := 84%N :: JSON.number_text ms.

Definition demo_draft : BookingData :=
  mkBookingData (lit "v1") (lit "Kigali") (lit "Huye")
    (Some 1900000000000%Z) (lit "09:00") 3.

Definition second_draft : BookingData :=
  mkBookingData (lit "v2") (lit "Musanze") (lit "Rubavu")
    (Some 1900086400000%Z) (lit "14:00") 5.

Definition demo_state : BookingState := mkState 3 demo_draft false.

Definition second_state : BookingState := mkState 3 second_draft false.

(** A draft on the date-and-time step, as the page builds it when it is
    opened with [?car=v1], the two places are typed, and a day and a time
    slot are picked. *)
Definition waiting_state : BookingState :=
  mkState 2
    (mkBookingData (lit "v1") (lit "Kigali") (lit "Huye")
       (Some 1800050000000%Z) (lit "09:00") 1)
    false.

Definition empty_world : World := mkWorld ∅ [].

(** The store after one, and after two, submits made while offline, at the
    clock readings 1800000000000 and 1800000060000. *)
Definition one_queued : World :=
  snd (handleSubmit demo_cars demo_iso false 1800000000000 demo_state empty_world).

Definition two_queued : World :=
  snd (handleSubmit demo_cars demo_iso false 1800000060000 second_state one_queued).

Definition first_record : value :=
  stored_record demo_cars demo_iso 1800000000000 demo_draft.

Definition second_record : value :=
  stored_record demo_cars demo_iso 1800000060000 second_draft.

Definition reject_all (record : value) : RemoteResult :=
  Rejected (lit "vehicle no longer available").


(** ** String methods used by the pages *)

Module Str.

(** WhiteSpace and LineTerminator, the code units that [trim] and
    [parseInt] skip. *)
Definition is_space (c : N) : bool :=
  (c =? 9) || (c =? 10) || (c =? 11) || (c =? 12) || (c =? 13) || (c =? 32)
  || (c =? 160) || (c =? 5760) || ((8192 <=? c) && (c <=? 8202))
  || (c =? 8232) || (c =? 8233) || (c =? 8239) || (c =? 8287)
  || (c =? 12288) || (c =? 65279).

Fixpoint trimStart (s : list N) : list N :=
  match s with
  | c :: r => if is_space c then trimStart r else s
  | [] => []
  end.

Definition trimEnd (s : list N) : list N := rev (trimStart (rev s)).

Definition trim (s : list N) : list N := trimEnd (trimStart s).

(** [s.split(sep)] for a separator of one code unit; the empty string
    gives one empty piece. *)
Fixpoint split (sep : N) (s : list N) : list (list N) :=
  match s with
  | [] => [[]]
  | c :: r =>
      if c =? sep then [] :: split sep r
      else match split sep r with
           | piece :: pieces => (c :: piece) :: pieces
           | [] => [[c]]
           end
  end.

(** [parts.join(sep)] *)
Fixpoint join (sep : list N) (parts : list (list N)) : list N :=
  match parts with
  | [] => []
  | [p] => p
  | p :: rest => p ++ sep ++ join sep rest
  end.

(** [s.padStart(n, fill)] for a filler of one code unit. *)
Definition padStart (n : nat) (fill : N) (s : list N) : list N :=
  repeat fill (n - length s) ++ s.

(** A text with no white space in front: empty, or beginning with
    something else. *)
Definition starts_clean (s : list N) : Prop :=
  match s with
  | [] => True
  | c :: _ => is_space c = false
  end.

End Str.

(** The value of the longest prefix of hexadecimal digits, if there is
    one. *)
Fixpoint hex_prefix (s : list N) (acc : N) (seen : bool) : option N :=
  match s with
  | c :: r =>
      match JSON.hex_val c with
      | Some d => hex_prefix r (16 * acc + d) true
      | None => if seen then Some acc else None
      end
  | [] => if seen then Some acc else None
  end.

(** The value of the longest prefix of decimal digits, if there is one. *)
Definition dec_prefix (s : list N) : option N :=
  match fst (JSON.read_digits s) with
  | Nil => None
  | u => Some (N.of_uint u)
  end.

(** [parseInt(s)] without a radix: leading white space, a sign, the prefix
    [0x] or [0X] for radix 16, then the longest run of digits.  [Ok None]
    is [NaN].  Negative zero and integers that are not safe are outside
    the integer model of numbers. *)
Definition parseInt (s : list N) : outcome (option Z) :=
  let s1 := Str.trimStart s in
  let negative :=
    match s1 with
    | c :: _ => c =? 45
    | [] => false
    end in
  let s2 :=
    match s1 with
    | c :: r => if (c =? 45) || (c =? 43) then r else s1
    | [] => []
    end in
  let digits :=
    match s2 with
    | c :: x :: r =>
        if (c =? 48) && ((x =? 120) || (x =? 88)) then hex_prefix r 0 false
        else dec_prefix s2
    | _ => dec_prefix s2
    end in
  match digits with
  | None => Ok None
  | Some n =>
      if negative && (n =? 0) then Unmodelled
      else
        let z := if negative then (- Z.of_N n)%Z else Z.of_N n in
        if is_safe z then Ok (Some z) else Unmodelled
  end.

(** [Number::toString] of an integer, as [(i + 1).toString()] and
    [i.toString()] in the option lists. *)
Definition toString (z : Z) : list N := JSON.number_text z.

(** ** The cars administration page
    (src/src/pages/admin/CarsManagement.tsx)

    The handlers of the form dialog and of the list of cars.  The upload
    of an image file ([handleFileUpload] and its state [uploading]) is not
    part of the model; none of the handlers below reads or writes
    [uploading]. *)

Module CarsManagement.

Record CarRow : Type := mkCarRow {
  id : list N;
  name : list N;
  type : list N;
  seats : Z;
  description : option (list N);
  features : option (list (list N));
  image : option (list N);
  images : list (list N);
  status : list N
}.

(** The state [form]; [features] is the comma-separated text. *)
Record Form : Type := mkForm {
  form_name : list N;
  form_type : list N;
  form_seats : Z;
  form_description : list N;
  form_features : list N;
  form_image : list N;
  form_status : list N
}.

Definition emptyForm : Form :=
  mkForm [] [] 5 [] [] [] (lit "available").

Record State : Type := mkState {
  cars : list CarRow;
  form : Form;
  editId : option (list N);
  open : bool
}.

Definition initial : State := mkState [] emptyForm None false.

(** The object [payload] of [handleSave]. *)
Record Payload : Type := mkPayload {
  p_name : list N;
  p_type : list N;
  p_seats : Z;
  p_description : list N;
  p_features : list (list N);
  p_image : option (list N);
  p_images : list (list N);
  p_status : list N
}.

(** A call on the [cars] table of the database client. *)
Inductive Request : Type :=
| Select
| Update (payload : Payload) (id : list N)
| Insert (payload : Payload)
| Delete (id : list N).

Inductive Effect : Type :=
| Call (request : Request)
| Toast (title : list N) (description : option (list N)) (destructive : bool)
| Confirm (message : list N).

(** [setForm] *)
Definition setForm (f : Form) (st : State) : State :=
  mkState (cars st) f (editId st) (open st).

(** [form.features.split(',').map((f) => f.trim()).filter(Boolean)] *)
Definition featuresArr (text : list N) : list (list N) :=
  List.filter truthy (List.map Str.trim (Str.split 44 text)).

Definition payload_of (f : Form) : Payload :=
  mkPayload (form_name f) (form_type f) (form_seats f) (form_description f)
    (featuresArr (form_features f))
    (if truthy (form_image f) then Some (form_image f) else None)
    (if truthy (form_image f) then [form_image f] else [])
    (form_status f).

(** [if (editId)]: [null] and the empty string are falsy. *)
Definition editing (st : State) : option (list N) :=
  match editId st with
  | Some (c :: r) => Some (c :: r)
  | _ => None
  end.

(** The guard of [handleSave]: [!form.name || !form.type]. *)
Definition missing_fields (f : Form) : bool :=
  negb (truthy (form_name f)) || negb (truthy (form_type f)).

(** The "Missing fields" toast of the guard. *)
Definition missing_toast : Effect :=
  Toast (lit "Missing fields") (Some (lit "Name and type are required.")) true.

(** The call that [handleSave] awaits, built from the state of the render
    in which the button was clicked; there is none when the guard returns
    first. *)
Definition handleSave_request (st : State) : option Request :=
  if missing_fields (form st) then None
  else
    match editing st with
    | Some i => Some (Update (payload_of (form st)) i)
    | None => Some (Insert (payload_of (form st)))
    end.

(** What [handleSave] does once the call has answered, on the state of
    that moment; [error] is the message of the error, if any.  The last
    effect of a success is the call of [fetchCars]. *)
Definition handleSave_answer (request : Request) (error : option (list N))
  (st : State) : State * list Effect :=
  match error with
  | Some message => (st, [Toast (lit "Error") (Some message) true])
  | None =>
      (mkState (cars st) emptyForm None false,
       [Toast (match request with
               | Update _ _ => lit "Car updated successfully"
               | _ => lit "Car added successfully"
               end) None false;
        Call Select])
  end.

(** A whole run of [handleSave] during which nothing else happens;
    [error] is what the call answers, if a call is made. *)
Definition handleSave (error : option (list N)) (st : State)
  : State * list Effect :=
  match handleSave_request st with
  | None => (st, [missing_toast])
  | Some request =>
      let '(st', effects) := handleSave_answer request error st in
      (st', Call request :: effects)
  end.

(** [fetchCars], once the rows have arrived: [if (data) setCars(data)]. *)
Definition fetchCars_answer (data : option (list CarRow)) (st : State) : State :=
  match data with
  | Some rows => mkState rows (form st) (editId st) (open st)
  | None => st
  end.

(** [x || ''] for a text that may be [null]. *)
Definition or_empty (x : option (list N)) : list N := default [] x.

Definition handleEdit (car : CarRow) (st : State) : State :=
  mkState (cars st)
    (mkForm (name car) (type car) (seats car)
       (or_empty (description car))
       (or_empty (option_map (Str.join (lit ", ")) (features car)))
       (or_empty (image car))
       (status car))
    (Some (id car))
    true.

(** [handleDelete]; [confirmed] is the answer to
    [confirm('Delete this car?')].  The answer of the call is not looked
    at. *)
Definition handleDelete (confirmed : bool) (i : list N) (st : State)
  : State * list Effect :=
  if confirmed then
    (st, [Confirm (lit "Delete this car?"); Call (Delete i);
          Toast (lit "Car deleted") None false; Call Select])
  else (st, [Confirm (lit "Delete this car?")]).

(** [onOpenChange] of the dialog. *)
Definition onOpenChange (v : bool) (st : State) : State :=
  if v then mkState (cars st) (form st) (editId st) true
  else mkState (cars st) emptyForm None false.

(** [parseInt(e.target.value) || 5] of the seats field. *)
Definition seats_of (text : list N) : outcome Z :=
  match parseInt text with
  | Ok None => Ok 5%Z
  | Ok (Some z) => if (z =? 0)%Z then Ok 5%Z else Ok z
  | Throw e => Throw e
  | Unmodelled => Unmodelled
  end.

(** The fields of the dialog that hold a text: an entry [text] in the
    field [fld] is [setForm({ ...form, [fld]: text })]; the "Remove" button
    of the image is the entry of the empty text. *)
Inductive Field : Type :=
| FName
| FType
| FDescription
| FFeatures
| FImage
| FStatus.

Definition setField (fld : Field) (text : list N) (f : Form) : Form :=
  match fld with
  | FName => mkForm text (form_type f) (form_seats f) (form_description f)
               (form_features f) (form_image f) (form_status f)
  | FType => mkForm (form_name f) text (form_seats f) (form_description f)
               (form_features f) (form_image f) (form_status f)
  | FDescription => mkForm (form_name f) (form_type f) (form_seats f) text
                      (form_features f) (form_image f) (form_status f)
  | FFeatures => mkForm (form_name f) (form_type f) (form_seats f)
                   (form_description f) text (form_image f) (form_status f)
  | FImage => mkForm (form_name f) (form_type f) (form_seats f)
                (form_description f) (form_features f) text (form_status f)
  | FStatus => mkForm (form_name f) (form_type f) (form_seats f)
                 (form_description f) (form_features f) (form_image f) text
  end.

(** The form after a list of entries, the first entry first. *)
Definition entries (es : list (Field * list N)) (f : Form) : Form :=
  fold_left (fun f e => setField (fst e) (snd e) f) es f.

End CarsManagement.

(** The fields of the steps that lie behind the current one are filled. *)
Definition steps_filled (st : BookingState) : Prop :=
  (0 <= step st <= 3)%Z
  /\ isSubmitted st = false
  /\ ((1 <= step st)%Z -> carId (booking st) <> [])
  /\ ((2 <= step st)%Z ->
      pickupLocation (booking st) <> [] /\ dropoffLocation (booking st) <> [])
  /\ ((3 <= step st)%Z ->
      is_Some (date (booking st)) /\ time (booking st) <> []
      /\ (1 <= duration (booking st))%Z).

(** A feature text that [featuresArr] gives back as it is: not empty, no
    comma, no white space at either end. *)
Definition clean_feature (f : list N) : Prop :=
  f <> [] /\ ~ In 44 f /\ Str.trim f = f.

(** The submissions of several drafts, one after the other, each made
    while offline at its own clock reading. *)
Fixpoint submit_all_offline (cars : list Car.t) (toISOString : Z -> list N)
  (subs : list (Z * BookingState)) (w : World) : outcome unit * World :=
  match subs with
  | [] => (Ok tt, w)
  | (now, st) :: rest =>
      match handleSubmit cars toISOString false now st w with
      | (Ok _, w') => submit_all_offline cars toISOString rest w'
      | (Throw e, w') => (Throw e, w')
      | (Unmodelled, w') => (Unmodelled, w')
      end
  end.

(** *** More concrete data *)

(** A store whose queue entry is not JSON, and one whose queue entry is a
    JSON object. *)
Definition garbled_world : World :=
  mkWorld {[ pendingBookings := lit "oops" ]} [].

Definition object_world : World :=
  mkWorld {[ pendingBookings := lit "{}" ]} [].

(** The confirmation step of the draft of [waiting_state]. *)
Definition confirming_state : BookingState := setStep 3 waiting_state.

(** A draft for a car that the catalog does not have. *)
Definition ghost_state : BookingState :=
  mkState 3
    (mkBookingData (lit "ghost") (lit "Kigali") (lit "Huye")
       (Some 1900000000000%Z) (lit "09:00") 2)
    false.

Definition demo_row : CarsManagement.CarRow :=
  CarsManagement.mkCarRow (lit "c-17") (lit "Toyota RAV4") (lit "SUV") 5 None
    (Some [lit "4WD"; lit "AC"]) (Some (lit "rav4.jpg"))
    [lit "rav4.jpg"; lit "rav4-back.jpg"] (lit "available").

(** * Facts about the JSON functions *)

Module JSONFacts.
Import JSON.
Local Open Scope N_scope.

(** **** Strings: what [quote] writes, [parse_chars] reads *)

Lemma hex_val_digit n : n < 16 -> hex_val (hex_digit n) = Some n.
Proof.
  intros Hn. unfold hex_val, hex_digit.
  destruct (n <? 10) eqn:E.
  - apply N.ltb_lt in E.
    replace ((48 <=? 48 + n) && (48 + n <=? 57)) with true
      by (symmetry; apply andb_true_iff; split; apply N.leb_le; lia).
    f_equal. lia.
  - apply N.ltb_ge in E.
    replace ((48 <=? 87 + n) && (87 + n <=? 57)) with false
      by (symmetry; apply andb_false_iff; right; apply N.leb_gt; lia).
    replace ((97 <=? 87 + n) && (87 + n <=? 102)) with true
      by (symmetry; apply andb_true_iff; split; apply N.leb_le; lia).
    f_equal. lia.
Qed.

Lemma hex4_escape c :
  c < 65536 ->
  hex4 (hex_digit (c / 4096)) (hex_digit ((c / 256) mod 16))
       (hex_digit ((c / 16) mod 16)) (hex_digit (c mod 16)) = Some c.
Proof.
  intros Hc. unfold hex4.
  rewrite !hex_val_digit.
  - f_equal.
    assert (E1 : c / 16 / 16 = c / 256) by (rewrite N.Div0.div_div; reflexivity).
    assert (E2 : c / 256 / 16 = c / 4096) by (rewrite N.Div0.div_div; reflexivity).
    pose proof (N.div_mod c 16) as D0.
    pose proof (N.div_mod (c / 16) 16) as D1.
    pose proof (N.div_mod (c / 256) 16) as D2.
    rewrite E1 in D1. rewrite E2 in D2. lia.
  - apply N.mod_lt; lia.
  - apply N.mod_lt; lia.
  - apply N.mod_lt; lia.
  - apply N.Div0.div_lt_upper_bound; lia.
Qed.

Local Open Scope outcome_scope.

Lemma parse_chars_plain c t :
  c <> 34 -> c <> 92 -> 32 <= c ->
  parse_chars (c :: t) = let* (str, rest) := parse_chars t in Ok (c :: str, rest).
Proof.
  intros H1 H2 H3. cbn [parse_chars].
  apply N.eqb_neq in H1, H2. rewrite H1, H2.
  replace (c <? 32) with false by (symmetry; apply N.ltb_ge; lia).
  reflexivity.
Qed.

Lemma parse_chars_simple e u t :
  simple_escape e = Some u -> e <> 117 ->
  parse_chars (92 :: e :: t) = let* (str, rest) := parse_chars t in Ok (u :: str, rest).
Proof.
  intros H1 H2. cbn [parse_chars]. apply N.eqb_neq in H2.
  change (92 =? 34) with false. change (92 =? 92) with true. cbv iota.
  rewrite H2, H1. reflexivity.
Qed.

Lemma parse_chars_unicode c t :
  c < 65536 ->
  parse_chars (unicode_escape c ++ t)
  = let* (str, rest) := parse_chars t in Ok (c :: str, rest).
Proof.
  intros Hc. unfold unicode_escape.
  change (parse_chars (?l ++ t)) with
    (match hex4 (hex_digit (c / 4096)) (hex_digit ((c / 256) mod 16))
             (hex_digit ((c / 16) mod 16)) (hex_digit (c mod 16)) with
     | Some u => let* (str, rest) := parse_chars t in Ok (u :: str, rest)
     | None => Throw SyntaxError
     end).
  rewrite hex4_escape by assumption. reflexivity.
Qed.

Lemma parse_chars_quote_one c t :
  parse_chars (quote_one c ++ t)
  = let* (str, rest) := parse_chars t in Ok (c :: str, rest).
Proof.
  unfold quote_one.
  repeat match goal with
         | |- context [if ?x =? ?k then _ else _] =>
             destruct (N.eqb_spec x k) as [-> | ?];
             [ apply parse_chars_simple; [reflexivity | discriminate] | ]
         end.
  destruct ((c <? 32) || is_high c || is_low c) eqn:E.
  - apply parse_chars_unicode.
    unfold is_high, is_low in E.
    apply orb_true_iff in E as [E | E]; [apply orb_true_iff in E as [E | E] |].
    + apply N.ltb_lt in E. lia.
    + apply andb_true_iff in E as [_ E]. apply N.leb_le in E. lia.
    + apply andb_true_iff in E as [_ E]. apply N.leb_le in E. lia.
  - apply orb_false_iff in E as [E _]. apply orb_false_iff in E as [E _].
    apply N.ltb_ge in E. apply parse_chars_plain; assumption.
Qed.

Lemma pair_induction {A : Type} (P : list A -> Prop) :
  P [] -> (forall c, P [c]) ->
  (forall c d r, P r -> P (d :: r) -> P (c :: d :: r)) ->
  forall l, P l.
Proof.
  intros H0 H1 H2 l.
  enough (P l /\ forall c, P (c :: l)) by tauto.
  induction l as [| d r [IH1 IH2]]; split; auto.
Qed.

Lemma quote_units_pair c d r :
  quote_units (c :: d :: r)
  = if is_high c && is_low d then c :: d :: quote_units r
    else quote_one c ++ quote_units (d :: r).
Proof. reflexivity. Qed.

Lemma parse_chars_quote_units s rest :
  parse_chars (quote_units s ++ 34 :: rest) = Ok (s, rest).
Proof.
  induction s as [| c | c d r IHr IHdr] using pair_induction.
  - reflexivity.
  - cbn [quote_units]. rewrite parse_chars_quote_one. reflexivity.
  - rewrite quote_units_pair.
    destruct (is_high c && is_low d) eqn:E.
    + apply andb_true_iff in E as [Ec Ed].
      unfold is_high in Ec. unfold is_low in Ed.
      apply andb_true_iff in Ec as [Ec1 Ec2]. apply andb_true_iff in Ed as [Ed1 Ed2].
      apply N.leb_le in Ec1, Ec2, Ed1, Ed2.
      rewrite <- !app_comm_cons.
      rewrite parse_chars_plain by lia. rewrite parse_chars_plain by lia.
      rewrite IHr. reflexivity.
    + rewrite <- app_assoc, parse_chars_quote_one, IHdr. reflexivity.
Qed.

(** **** Numbers: what [number_text] writes, [parse_number] reads *)

Lemma read_digits_units u rest :
  delimited rest -> read_digits (uint_units u ++ rest) = (u, rest).
Proof.
  intros Hrest.
  induction u; cbn [uint_units app read_digits];
    try (rewrite IHu; reflexivity).
  destruct rest as [| c t]; [reflexivity |].
  cbn [read_digits]. cbn in Hrest.
  replace (is_digit c) with false; [reflexivity |].
  destruct Hrest as [-> | [-> | ->]]; reflexivity.
Qed.

Lemma nzhead_not_D0 u v : nzhead u <> D0 v.
Proof. induction u; cbn; congruence. Qed.

Lemma to_uint_shape p :
  match Pos.to_uint p with
  | Nil | D0 _ => False
  | _ => True
  end.
Proof.
  pose proof (DecimalPos.Unsigned.to_of (Pos.to_uint p)) as E.
  rewrite DecimalPos.Unsigned.of_to in E. cbn [N.to_uint] in E.
  pose proof (DecimalPos.Unsigned.to_uint_nonzero p) as Hz.
  destruct (Pos.to_uint p) as [| u | | | | | | | | |] eqn:Ep; try exact I.
  - apply Hz.
    unfold unorm in E. cbn in E. discriminate.
  - rewrite DecimalFacts.unorm_D0 in E. unfold unorm in E.
    destruct (nzhead u) eqn:En; try (symmetry in E; revert E; rewrite <- En; apply nzhead_not_D0).
    exact (Hz E).
Qed.

Lemma after_number rest :
  delimited rest ->
  match rest with
  | c :: _ => (c =? 46) || (c =? 101) || (c =? 69) = false
  | [] => True
  end.
Proof.
  destruct rest as [| c t]; [trivial |].
  intros [-> | [-> | ->]]; reflexivity.
Qed.

Lemma parse_nat_units u rest :
  delimited rest ->
  match u with
  | Nil => False
  | D0 Nil => True
  | D0 _ => False
  | _ => True
  end ->
  parse_nat (uint_units u ++ rest) = Ok (N.of_uint u, rest).
Proof.
  intros Hrest Hu. unfold parse_nat.
  rewrite read_digits_units by assumption.
  pose proof (after_number rest Hrest) as Ha.
  destruct u as [| [] | | | | | | | | |]; try contradiction; cbn [obind];
    destruct rest; try reflexivity; rewrite Ha; reflexivity.
Qed.

Lemma parse_nat_pos p rest :
  delimited rest ->
  parse_nat (uint_units (Pos.to_uint p) ++ rest) = Ok (Npos p, rest).
Proof.
  intros Hrest. rewrite parse_nat_units; [| assumption |].
  - unfold N.of_uint. rewrite DecimalPos.Unsigned.of_to. reflexivity.
  - pose proof (to_uint_shape p). destruct (Pos.to_uint p); tauto.
Qed.

Lemma uint_units_head p :
  exists c t, uint_units (Pos.to_uint p) = c :: t /\ is_digit c = true /\ c <> 45.
Proof.
  pose proof (to_uint_shape p) as Hs.
  destruct (Pos.to_uint p); try contradiction; cbn [uint_units];
    eexists _, _; (split; [reflexivity | split; [reflexivity | discriminate]]).
Qed.

Lemma parse_number_text z rest :
  delimited rest ->
  parse_number (number_text z ++ rest) = Ok (z, rest).
Proof.
  intros Hrest. destruct z as [| p | p]; cbn [number_text].
  - pose proof (parse_nat_units (D0 Nil) rest Hrest I) as E.
    unfold parse_number. cbn [uint_units app] in *.
    change (48 =? 45) with false. cbv iota. rewrite E. reflexivity.
  - destruct (uint_units_head p) as (c & t & E & _ & Hc).
    unfold parse_number.
    pose proof (parse_nat_pos p rest Hrest) as Hp. rewrite E in *.
    cbn [app] in *. apply N.eqb_neq in Hc. rewrite Hc, Hp. reflexivity.
  - unfold parse_number. cbn [app]. change (45 =? 45) with true. cbv iota.
    rewrite parse_nat_pos by assumption. reflexivity.
Qed.

Lemma accept_here c t : is_ws c = false -> accept c (c :: t) = Some t.
Proof.
  intros H. unfold accept. cbn [skip_ws]. rewrite H, N.eqb_refl. reflexivity.
Qed.

Lemma accept_other c c' t :
  is_ws c' = false -> c' <> c -> accept c (c' :: t) = None.
Proof.
  intros H Hn. unfold accept. cbn [skip_ws]. rewrite H.
  apply N.eqb_neq in Hn. rewrite Hn. reflexivity.
Qed.

(** **** Induction over values, through the lists they contain *)

Lemma value_nested_ind (P : value -> Prop) :
  P VUndefined -> P VNull -> (forall b, P (VBool b)) -> (forall z, P (VNum z)) ->
  (forall s, P (VStr s)) ->
  (forall items, Forall P items -> P (VArr items)) ->
  (forall props, Forall (fun kv => P (snd kv)) props -> P (VObj props)) ->
  forall v, P v.
Proof.
  intros Hu Hn Hb Hz Hs Ha Ho.
  fix IH 1. intros [| | b | z | s | items | props].
  - exact Hu.
  - exact Hn.
  - apply Hb.
  - apply Hz.
  - apply Hs.
  - apply Ha. induction items as [| x l IHl]; constructor; [apply IH | exact IHl].
  - apply Ho. induction props as [| [k x] l IHl]; constructor; [apply IH | exact IHl].
Qed.

Lemma serialize_arr items :
  serialize (VArr items)
  = Some (91 :: join_comma (List.map elem_text items) ++ [93]).
Proof. reflexivity. Qed.

Lemma serialize_obj props :
  serialize (VObj props)
  = Some (123 :: join_comma (omap member_text props) ++ [125]).
Proof.
  cbn [serialize].
  match goal with
  | |- Some (_ :: join_comma ?a ++ _) = Some (_ :: join_comma ?b ++ _) =>
      enough (E : a = b) by (rewrite E; reflexivity)
  end.
  induction props as [| [k x] l IH]; [reflexivity |].
  cbn [omap list_omap]. unfold member_text at 1. cbn [fst snd].
  destruct (serialize x); rewrite <- IH; reflexivity.
Qed.

Lemma number_text_head z :
  exists c t, number_text z = c :: t /\ (c =? 45) || is_digit c = true.
Proof.
  destruct z as [| p | p]; cbn [number_text].
  - eexists _, _; split; reflexivity.
  - destruct (uint_units_head p) as (c & t & -> & Hd & _).
    exists c, t. split; [reflexivity |]. rewrite Hd. apply orb_true_r.
  - eexists _, _; split; reflexivity.
Qed.

Lemma serialize_head v t :
  serialize v = Some t -> exists c t', t = c :: t' /\ starts_value c = true.
Proof.
  destruct v as [| | [] | z | s | items | props]; intros E.
  - discriminate.
  - injection E as <-. eexists _, _; split; reflexivity.
  - injection E as <-. eexists _, _; split; reflexivity.
  - injection E as <-. eexists _, _; split; reflexivity.
  - injection E as <-. destruct (number_text_head z) as (c & t' & -> & Hc).
    exists c, t'. split; [reflexivity |]. unfold starts_value.
    apply orb_true_iff in Hc as [-> | ->]; rewrite ?orb_true_r; reflexivity.
  - injection E as <-. eexists _, _; split; reflexivity.
  - rewrite serialize_arr in E. injection E as <-. eexists _, _; split; reflexivity.
  - rewrite serialize_obj in E. injection E as <-. eexists _, _; split; reflexivity.
Qed.

Lemma starts_value_cases c :
  starts_value c = true ->
  c = 110 \/ c = 116 \/ c = 102 \/ c = 34 \/ c = 91 \/ c = 123 \/ c = 45
  \/ (48 <= c <= 57).
Proof.
  unfold starts_value, is_digit. intros H.
  repeat (apply orb_true_iff in H as [H | H]);
    try (apply N.eqb_eq in H; lia).
  apply andb_true_iff in H as [H1 H2]. apply N.leb_le in H1, H2. lia.
Qed.

Lemma skip_ws_value c t : starts_value c = true -> skip_ws (c :: t) = c :: t.
Proof.
  intros H. apply starts_value_cases in H. cbn [skip_ws].
  replace (is_ws c) with false; [reflexivity |].
  unfold is_ws. symmetry. rewrite !orb_false_iff, !N.eqb_neq. lia.
Qed.

(** **** Arrays and objects *)

Lemma wf_serialize v : json_wf v -> exists t, serialize v = Some t.
Proof.
  intros [| [] | | | |]; eexists; reflexivity.
Qed.

Lemma join_comma_cons p q rest :
  join_comma (p :: q :: rest) = p ++ 44 :: join_comma (q :: rest).
Proof. reflexivity. Qed.

Lemma parse_elements_join items :
  Forall json_wf items -> Forall reads_back items -> items <> [] ->
  forall fuel rest,
    (length (join_comma (List.map elem_text items)) < fuel)%nat ->
    parse_elements fuel (join_comma (List.map elem_text items) ++ 93 :: rest)
    = Ok (items, rest).
Proof.
  intros Hwf Hrb. induction items as [| x l IH]; [congruence |].
  intros _ fuel rest Hfuel.
  apply Forall_cons in Hwf as [Hx Hl]. apply Forall_cons in Hrb as [Rx Rl].
  destruct (wf_serialize x Hx) as [t Et].
  assert (Ex : elem_text x = t) by (unfold elem_text; rewrite Et; reflexivity).
  destruct (serialize_head x t Et) as (c & t' & Ec & Hc).
  destruct fuel as [| fuel]; [lia |].
  cbn [parse_elements]. destruct l as [| y l'].
  - cbn [List.map join_comma] in *. rewrite Ex in *.
    rewrite (Rx t fuel (93 :: rest) Et) by (cbn; auto; lia).
    cbn [obind]. rewrite accept_other, accept_here by (reflexivity || discriminate).
    reflexivity.
  - cbn [List.map] in *. rewrite join_comma_cons in *. rewrite Ex in *.
    rewrite length_app in Hfuel. cbn [length] in Hfuel.
    rewrite <- app_assoc, <- app_comm_cons.
    rewrite (Rx t fuel (44 :: _) Et) by (cbn; auto; lia).
    cbn [obind]. rewrite accept_here by reflexivity.
    rewrite (IH Hl Rl) by (try discriminate; subst t; cbn [length] in *; lia).
    reflexivity.
Qed.


Ltac norm_app := repeat (rewrite <- app_assoc || rewrite <- app_comm_cons).

Lemma parse_members_step fuel k t tail :
  parse_members (S fuel) (quote k ++ 58 :: t ++ tail)
  = let* (v, r3) := parse_value fuel (t ++ tail) in
    match accept 44 r3 with
    | Some r4 =>
        let* (ms, rest) := parse_members fuel r4 in Ok ((k, v) :: ms, rest)
    | None =>
        match accept 125 r3 with
        | Some rest => Ok ([(k, v)], rest)
        | None => Throw SyntaxError
        end
    end.
Proof.
  unfold quote. cbn [parse_members app]. rewrite accept_here by reflexivity.
  norm_app. rewrite parse_chars_quote_units. cbn [obind app].
  rewrite accept_here by reflexivity. reflexivity.
Qed.

Lemma parse_members_join props :
  Forall (fun kv => json_wf (snd kv)) props ->
  Forall (fun kv => reads_back (snd kv)) props -> props <> [] ->
  forall fuel rest,
    (length (join_comma (omap member_text props)) < fuel)%nat ->
    parse_members fuel (join_comma (omap member_text props) ++ 125 :: rest)
    = Ok (props, rest).
Proof.
  intros Hwf Hrb. induction props as [| [k x] l IH]; [congruence |].
  intros _ fuel rest Hfuel.
  apply Forall_cons in Hwf as [Hx Hl]. apply Forall_cons in Hrb as [Rx Rl].
  cbn [fst snd] in *.
  destruct (wf_serialize x Hx) as [t Et].
  assert (Ex : member_text (k, x) = Some (quote k ++ 58 :: t))
    by (unfold member_text; cbn [fst snd]; rewrite Et; reflexivity).
  destruct fuel as [| fuel]; [lia |].
  cbn [omap list_omap] in *. fold (omap member_text l) in *. rewrite Ex in *.
  destruct l as [| [k' y] l'].
  - cbn [omap list_omap join_comma] in *.
    rewrite length_app in Hfuel. cbn [length] in Hfuel.
    norm_app. rewrite parse_members_step.
    rewrite (Rx t fuel (125 :: rest) Et) by (cbn; auto; lia).
    cbn [obind]. rewrite accept_other, accept_here by (reflexivity || discriminate).
    reflexivity.
  - apply Forall_cons in Hl as Hl'. destruct Hl' as [Hy _]. cbn [snd] in Hy.
    destruct (wf_serialize y Hy) as [u Eu].
    assert (Ey : member_text (k', y) = Some (quote k' ++ 58 :: u))
      by (unfold member_text; cbn [fst snd]; rewrite Eu; reflexivity).
    assert (Eo : omap member_text ((k', y) :: l')
                 = (quote k' ++ 58 :: u) :: omap member_text l')
      by (cbn [omap list_omap]; rewrite Ey; reflexivity).
    rewrite Eo in *. rewrite join_comma_cons in *.
    rewrite length_app in Hfuel. cbn [length] in Hfuel.
    rewrite length_app in Hfuel. cbn [length] in Hfuel.
    norm_app. rewrite parse_members_step.
    rewrite (Rx t fuel (44 :: _) Et) by (cbn; auto; lia).
    cbn [obind]. rewrite accept_here by reflexivity.
    rewrite (IH Hl Rl) by (try discriminate; lia).
    reflexivity.
Qed.


Lemma obj_set_fresh k v props :
  ~ In k (List.map fst props) -> obj_set k v props = props ++ [(k, v)].
Proof.
  induction props as [| [k' v'] l IH]; intros Hk; [reflexivity |].
  cbn [obj_set]. cbn [List.map fst In] in Hk.
  destruct (decide (k' = k)) as [-> | _]; [tauto |].
  rewrite IH by tauto. reflexivity.
Qed.

Lemma fold_obj_set_distinct l acc :
  List.NoDup (List.map fst (acc ++ l)) ->
  fold_left (fun o kv => obj_set (fst kv) (snd kv) o) l acc = acc ++ l.
Proof.
  revert acc. induction l as [| [k v] l IH]; intros acc Hnd.
  - rewrite app_nil_r. reflexivity.
  - cbn [fold_left fst snd].
    assert (Hk : ~ In k (List.map fst acc)).
    { rewrite List.map_app in Hnd. cbn [List.map fst] in Hnd.
      apply List.NoDup_remove_2 in Hnd. intros Hin. apply Hnd.
      apply List.in_or_app. left. exact Hin. }
    rewrite obj_set_fresh by exact Hk.
    rewrite IH; rewrite <- app_assoc; [reflexivity | exact Hnd].
Qed.

Lemma build_object_distinct props :
  NoDup (List.map fst props) -> build_object props = props.
Proof.
  intros H. apply NoDup_ListNoDup in H.
  unfold build_object. rewrite fold_obj_set_distinct; auto.
Qed.

Lemma existsb_index_like props :
  Forall (fun kv => index_like (fst kv) = false) props ->
  existsb (fun kv : list N * value => index_like (fst kv)) props = false.
Proof.
  induction 1 as [| kv l Hkv _ IH]; [reflexivity |].
  cbn [existsb]. rewrite Hkv, IH. reflexivity.
Qed.

Lemma parse_value_number fuel c r :
  (c =? 45) || is_digit c = true ->
  parse_value (S fuel) (c :: r)
  = let* (z, rest) := parse_number (c :: r) in
    if is_safe z then Ok (VNum z, rest) else Unmodelled.
Proof.
  intros Hc.
  assert (Hv : starts_value c = true).
  { unfold starts_value. apply orb_true_iff in Hc as [-> | ->];
      rewrite ?orb_true_r; reflexivity. }
  cbn [parse_value]. rewrite skip_ws_value by exact Hv.
  assert (Hr : c = 45 \/ 48 <= c <= 57).
  { unfold is_digit in Hc. apply orb_true_iff in Hc as [H | H].
    - apply N.eqb_eq in H. auto.
    - apply andb_true_iff in H as [H1 H2]. apply N.leb_le in H1, H2. auto. }
  repeat match goal with
         | |- context [if ?x =? ?k then _ else _] =>
             destruct (N.eqb_spec x k) as [? | _]; [lia |]
         end.
  rewrite Hc. reflexivity.
Qed.

Lemma fuel_succ {A : Type} (c : A) t fuel :
  (length (c :: t) <= fuel)%nat -> exists f, fuel = S f /\ (length t <= f)%nat.
Proof. destruct fuel; cbn [length]; [lia |]. exists fuel. split; [reflexivity | lia]. Qed.

Lemma is_ws_value c : starts_value c = true -> is_ws c = false.
Proof.
  intros H. apply starts_value_cases in H.
  unfold is_ws. rewrite !orb_false_iff, !N.eqb_neq. lia.
Qed.

Lemma parse_value_literal fuel word v rest :
  (word = lit "null" /\ v = VNull) \/ (word = lit "true" /\ v = VBool true)
  \/ (word = lit "false" /\ v = VBool false) ->
  parse_value (S fuel) (word ++ rest) = Ok (v, rest).
Proof.
  intros [[-> ->] | [[-> ->] | [-> ->]]];
    cbn [parse_value]; vm_compute lit; cbn [app skip_ws];
    match goal with |- context [is_ws ?c] => change (is_ws c) with false end;
    cbv iota;
    repeat match goal with
           | |- context [?a =? ?b] =>
               let r := eval vm_compute in (a =? b) in change (a =? b) with r
           end;
    cbv iota; unfold expect_literal; rewrite decide_True by reflexivity;
    reflexivity.
Qed.

(** Reading back what [JSON.stringify] wrote. *)
Lemma parse_value_serialize v : json_wf v -> reads_back v.
Proof.
  induction v as [| | b | z | s | items IH | props IH] using value_nested_ind;
    intros Hwf t fuel rest Et Hrest Hfuel.
  - inversion Hwf.
  - injection Et as <-. destruct fuel; [cbn in Hfuel; lia |].
    apply parse_value_literal. auto.
  - destruct b; injection Et as <-; (destruct fuel; [cbn in Hfuel; lia |]);
      apply parse_value_literal; auto.
  - injection Et as <-.
    destruct (number_text_head z) as (c & t' & E & Hc).
    pose proof (parse_number_text z rest Hrest) as Hp. rewrite E in *.
    destruct (fuel_succ _ _ _ Hfuel) as (f & -> & _).
    cbn [app] in *. rewrite parse_value_number by exact Hc.
    rewrite Hp. cbn [obind]. inversion Hwf as [| | z' Hz | | |]; subst z'.
    rewrite Hz. reflexivity.
  - injection Et as <-. destruct fuel; [cbn in Hfuel; lia |].
    unfold quote. cbn [parse_value app skip_ws]. change (is_ws 34) with false.
    cbv iota. norm_app. rewrite parse_chars_quote_units. reflexivity.
  - rewrite serialize_arr in Et. injection Et as <-.
    destruct (fuel_succ _ _ _ Hfuel) as (f & -> & Hf).
    rewrite length_app in Hf. cbn [length] in Hf.
    inversion Hwf as [| | | | items' Hall |]; subst items'.
    assert (Hrb : Forall reads_back items).
    { clear -IH Hall. induction Hall as [| x l Hx _ IHl]; [constructor |].
      apply Forall_cons in IH as [IHx IHl']. constructor; auto. }
    cbn [parse_value app skip_ws]. change (is_ws 91) with false. cbv iota.
    change (91 =? 34) with false. change (91 =? 91) with true. cbv iota.
    destruct items as [| x l].
    + cbn [List.map join_comma app]. rewrite accept_here by reflexivity. reflexivity.
    + pose proof (parse_elements_join (x :: l) Hall Hrb) as Hp.
      specialize (Hp ltac:(discriminate) f rest ltac:(lia)).
      destruct (wf_serialize x) as [tx Ex]; [inversion Hall; assumption |].
      destruct (serialize_head x tx Ex) as (c & t' & -> & Hc).
      assert (Hj : exists t'', join_comma (List.map elem_text (x :: l)) = c :: t'').
      { cbn [List.map]. unfold elem_text at 1. rewrite Ex. cbn [default].
        destruct l; cbn [List.map join_comma app]; eauto. }
      destruct Hj as [t'' Hj].
      norm_app. rewrite Hj in *. cbn [app] in *.
      rewrite accept_other, Hp;
        [reflexivity | apply is_ws_value; exact Hc |].
      apply starts_value_cases in Hc. lia.
  - rewrite serialize_obj in Et. injection Et as <-.
    destruct (fuel_succ _ _ _ Hfuel) as (f & -> & Hf).
    rewrite length_app in Hf. cbn [length] in Hf.
    inversion Hwf as [| | | | | props' Hnd Hix Hall]; subst props'.
    assert (Hrb : Forall (fun kv => reads_back (snd kv)) props).
    { clear -IH Hall. induction Hall as [| x l Hx _ IHl]; [constructor |].
      apply Forall_cons in IH as [IHx IHl']. constructor; auto. }
    cbn [parse_value app skip_ws]. change (is_ws 123) with false. cbv iota.
    change (123 =? 34) with false. change (123 =? 91) with false.
    change (123 =? 123) with true. cbv iota.
    destruct props as [| [k x] l].
    + cbn [omap list_omap join_comma app]. rewrite accept_here by reflexivity.
      reflexivity.
    + pose proof (parse_members_join ((k, x) :: l) Hall Hrb) as Hp.
      specialize (Hp ltac:(discriminate) f rest ltac:(lia)).
      assert (Hj : exists t'', join_comma (omap member_text ((k, x) :: l)) = 34 :: t'').
      { destruct (wf_serialize x) as [tx Ex]; [inversion Hall; assumption |].
        cbn [omap list_omap]. unfold member_text at 1. cbn [fst snd]. rewrite Ex.
        fold (omap member_text l). unfold quote.
        destruct (omap member_text l); cbn [join_comma app]; eauto. }
      destruct Hj as [t'' Hj].
      norm_app. rewrite Hj in *. cbn [app] in *.
      rewrite accept_other, Hp by (reflexivity || discriminate).
      cbn [obind]. rewrite existsb_index_like by exact Hix.
      rewrite build_object_distinct by exact Hnd. reflexivity.
Qed.


(** [JSON.parse(JSON.stringify(v))] is [v] for every value of the model. *)
Lemma parse_stringify v t : json_wf v -> stringify v = Some t -> parse t = Ok v.
Proof.
  intros Hwf Et. unfold parse.
  pose proof (parse_value_serialize v Hwf t (S (2 * length t)) [] Et I) as H.
  rewrite app_nil_r in H. rewrite H by lia. reflexivity.
Qed.

(** **** What the parser returns is a value of the model *)

Lemma obind_Ok {A B : Type} (m : outcome A) (k : A -> outcome B) b :
  obind m k = Ok b -> exists a, m = Ok a /\ k a = Ok b.
Proof. destruct m; cbn; intros H; try discriminate. eauto. Qed.

Lemma obj_set_Forall (P : list N * value -> Prop) k v o :
  Forall P o -> P (k, v) -> Forall P (obj_set k v o).
Proof.
  intros Ho Hkv. induction Ho as [| [k' v'] l Hx Hl IH]; cbn [obj_set].
  - constructor; [exact Hkv | constructor].
  - destruct (decide (k' = k)) as [-> | _]; constructor; auto.
Qed.

Lemma obj_set_keys k v o :
  List.map fst (obj_set k v o)
  = if decide (k ∈ List.map fst o) then List.map fst o else List.map fst o ++ [k].
Proof.
  induction o as [| [k' v'] l IH]; cbn [obj_set List.map fst].
  - rewrite decide_False by (apply not_elem_of_nil). reflexivity.
  - destruct (decide (k' = k)) as [-> | Hne].
    + rewrite decide_True by (apply elem_of_cons; auto). reflexivity.
    + cbn [List.map fst]. rewrite IH.
      destruct (decide (k ∈ List.map fst l)) as [Hin | Hnin].
      * rewrite decide_True by (apply elem_of_cons; auto). reflexivity.
      * rewrite decide_False; [reflexivity |].
        intros [? | ?]%elem_of_cons; congruence.
Qed.

Lemma obj_set_NoDup k v o :
  NoDup (List.map fst o) -> NoDup (List.map fst (obj_set k v o)).
Proof.
  intros H. rewrite obj_set_keys.
  destruct (decide (k ∈ List.map fst o)); [exact H |].
  apply NoDup_app. repeat split; [exact H | | apply NoDup_singleton].
  intros x Hx ->%list_elem_of_singleton. contradiction.
Qed.

Lemma build_object_wf members :
  Forall (fun kv => index_like (fst kv) = false) members ->
  Forall (fun kv => json_wf (snd kv)) members ->
  json_wf (VObj (build_object members)).
Proof.
  intros Hix Hwf. unfold build_object.
  enough (H : forall acc,
             json_wf (VObj acc) ->
             json_wf (VObj (fold_left (fun o kv => obj_set (fst kv) (snd kv) o)
                              members acc))).
  { apply H. constructor; constructor. }
  induction members as [| [k v] l IH]; intros acc Hacc; [exact Hacc |].
  apply Forall_cons in Hix as [Hk Hl]. apply Forall_cons in Hwf as [Hv Hl'].
  cbn [fold_left fst snd] in *. apply IH; [assumption | assumption |].
  inversion Hacc as [| | | | | props Hnd Hi Hw]; subst props.
  constructor.
  - apply obj_set_NoDup. exact Hnd.
  - apply obj_set_Forall; assumption.
  - apply obj_set_Forall; assumption.
Qed.

Lemma existsb_false_Forall {A : Type} (f : A -> bool) l :
  existsb f l = false -> Forall (fun x => f x = false) l.
Proof.
  induction l as [| x l IH]; cbn [existsb]; intros H; constructor.
  - apply orb_false_iff in H. tauto.
  - apply IH. apply orb_false_iff in H. tauto.
Qed.

Lemma expect_literal_Ok word v s v' rest :
  expect_literal word v s = Ok (v', rest) -> v' = v.
Proof.
  unfold expect_literal. destruct (decide _); intros H; [| discriminate].
  injection H as <- _. reflexivity.
Qed.

Lemma parse_fuel_wf fuel :
  (forall s v r, parse_value fuel s = Ok (v, r) -> json_wf v)
  /\ (forall s vs r, parse_elements fuel s = Ok (vs, r) -> Forall json_wf vs)
  /\ (forall s ms r, parse_members fuel s = Ok (ms, r) ->
       Forall (fun kv => json_wf (snd kv)) ms).
Proof.
  induction fuel as [| fuel (IHv & IHe & IHm)];
    [repeat split; intros; discriminate |].
  repeat split.
  - intros s v r. cbn [parse_value].
    destruct (skip_ws s) as [| c t]; [discriminate |].
    destruct (c =? 34).
    { intros ([str rest] & _ & H)%obind_Ok. injection H as <- _. constructor. }
    destruct (c =? 91).
    { destruct (accept 93 t).
      - intros H. injection H as <- _. constructor. constructor.
      - intros ([items rest] & Hi & H)%obind_Ok. injection H as <- _.
        constructor. eapply IHe. exact Hi. }
    destruct (c =? 123).
    { destruct (accept 125 t).
      - intros H. injection H as <- _. constructor; constructor.
      - intros ([members rest] & Hi & H)%obind_Ok.
        destruct (existsb _ members) eqn:Ex; [discriminate |].
        injection H as <- _. apply build_object_wf.
        + apply existsb_false_Forall in Ex. exact Ex.
        + eapply IHm. exact Hi. }
    destruct (c =? 110); [intros ->%expect_literal_Ok; constructor |].
    destruct (c =? 116); [intros ->%expect_literal_Ok; constructor |].
    destruct (c =? 102); [intros ->%expect_literal_Ok; constructor |].
    destruct ((c =? 45) || is_digit c); [| discriminate].
    intros ([z rest] & _ & H)%obind_Ok.
    destruct (is_safe z) eqn:Hz; [| discriminate].
    injection H as <- _. constructor. exact Hz.
  - intros s vs r. cbn [parse_elements].
    intros ([v t] & Hv & H)%obind_Ok. apply IHv in Hv.
    destruct (accept 44 t).
    + apply obind_Ok in H as ([vs' rest] & Hvs & H). injection H as <- _.
      constructor; [exact Hv | eapply IHe; exact Hvs].
    + destruct (accept 93 t); [| discriminate].
      injection H as <- _. constructor; [exact Hv | constructor].
  - intros s ms r. cbn [parse_members].
    destruct (accept 34 s) as [r0 |]; [| discriminate].
    intros ([k r1] & _ & H)%obind_Ok.
    destruct (accept 58 r1) as [r2 |]; [| discriminate].
    apply obind_Ok in H as ([v r3] & Hv & H). apply IHv in Hv.
    destruct (accept 44 r3).
    + apply obind_Ok in H as ([ms' rest] & Hms & H). injection H as <- _.
      constructor; [exact Hv | eapply IHm; exact Hms].
    + destruct (accept 125 r3); [| discriminate].
      injection H as <- _. constructor; [exact Hv | constructor].
Qed.

Lemma parse_wf text v : parse text = Ok v -> json_wf v.
Proof.
  unfold parse. intros ([v' rest] & Hv & H)%obind_Ok.
  destruct (skip_ws rest); [| discriminate]. injection H as <-.
  eapply parse_fuel_wf. exact Hv.
Qed.

End JSONFacts.

(** * Facts about the booking page *)

Section BookingFacts.

Variable cars : list Car.t.
Variable toISOString : Z -> list N.

Local Open Scope Z_scope.

Lemma or_empty_array_nonempty c t : or_empty_array (Some (c :: t)) = c :: t.
Proof. reflexivity. Qed.

Lemma member_text_undefined kv :
  is_undefined (snd kv) = true -> JSON.member_text kv = None.
Proof. destruct kv as [k []]; cbn; intros H; try discriminate. reflexivity. Qed.

Lemma serialize_drop_undefined v :
  JSON.serialize (drop_undefined v) = JSON.serialize v.
Proof.
  destruct v as [| | | | | | props]; try reflexivity.
  unfold drop_undefined. rewrite !JSONFacts.serialize_obj.
  do 3 f_equal. f_equal.
  induction props as [| kv l IH]; [reflexivity |].
  cbn [List.filter]. destruct (is_undefined (snd kv)) eqn:E; cbn [negb].
  - cbn [omap list_omap]. rewrite member_text_undefined by exact E. exact IH.
  - cbn [omap list_omap]. rewrite IH. reflexivity.
Qed.


Lemma stored_record_wf now b :
  numbers_in_model cars b -> json_wf (stored_record cars toISOString now b).
Proof.
  intros [Hd Hp]. unfold stored_record, stored_props, bookingProps.
  destruct (date b); cbn [List.filter snd is_undefined negb];
    (constructor;
     [ apply NoDup_ListNoDup; vm_compute;
       repeat (constructor; [cbn [In]; intuition discriminate |]); constructor
     | repeat (constructor; [reflexivity |]); constructor
     | repeat (constructor; [cbn [snd]; constructor; assumption |]);
       constructor ]).
Qed.

Lemma stored_props_read now b k :
  read k (stored_props cars toISOString now b)
  = read k (bookingProps cars toISOString now b).
Proof.
  unfold stored_props, bookingProps, read.
  destruct (date b); [reflexivity |].
  cbn [List.filter snd is_undefined negb obj_get].
  repeat match goal with
         | |- context [decide (?a = k)] =>
             destruct (decide (a = k)) as [<- | ?]; [reflexivity |]
         end.
  reflexivity.
Qed.

Lemma stringify_queue q : JSON.stringify (VArr q) = Some (queue_text q).
Proof. reflexivity. Qed.

Lemma queue_text_append q data :
  queue_text (q ++ [drop_undefined data]) = queue_text (q ++ [data]).
Proof.
  unfold queue_text. rewrite !List.map_app. cbn [List.map].
  unfold JSON.elem_text at 2 4. rewrite serialize_drop_undefined. reflexivity.
Qed.

Lemma parse_queue_text q :
  Forall json_wf q -> JSON.parse (queue_text q) = Ok (VArr q).
Proof.
  intros H. apply JSONFacts.parse_stringify; [constructor; exact H | reflexivity].
Qed.

Lemma read_queue_wf w q : read_queue w = Ok (VArr q) -> Forall json_wf q.
Proof.
  intros H. apply JSONFacts.parse_wf in H. inversion H. assumption.
Qed.

(** Offline [handleSubmit], step by step. *)
Lemma handleSubmit_offline now st w q :
  read_queue w = Ok (VArr q) -> numbers_in_model cars (booking st) ->
  let data := bookingData cars toISOString now (booking st) in
  let text := queue_text (q ++ [data]) in
  let w' := mkWorld (<[pendingBookings := text]> (storage w))
              (events w ++ [EGetItem pendingBookings; ESetItem pendingBookings text]) in
  handleSubmit cars toISOString false now st w = (Ok (setIsSubmitted true st), w')
  /\ read_queue w'
     = Ok (VArr (q ++ [stored_record cars toISOString now (booking st)])).
Proof.
  intros Hq Hnum data text w'. split.
  - unfold handleSubmit, bind, localStorage.getItem, lift. cbn [negb].
    cbn [storage events]. unfold read_queue in Hq. rewrite Hq.
    cbn [push]. unfold localStorage.setItem, ret. cbn [storage events].
    rewrite stringify_queue. cbn [default]. rewrite <- app_assoc. reflexivity.
  - unfold read_queue, w'. cbn [storage]. rewrite lookup_insert_eq.
    unfold text, queue_text at 1. rewrite or_empty_array_nonempty.
    fold (queue_text (q ++ [data])). rewrite <- queue_text_append.
    change (drop_undefined data)
      with (stored_record cars toISOString now (booking st)).
    apply parse_queue_text. apply Forall_app. split.
    + eapply read_queue_wf. exact Hq.
    + constructor; [apply stored_record_wf; exact Hnum | constructor].
Qed.

(** Online [handleSubmit] touches nothing. *)
Lemma handleSubmit_online now st w :
  handleSubmit cars toISOString true now st w = (Ok (setIsSubmitted true st), w).
Proof. reflexivity. Qed.

(** The sync effect on a queue that holds something. *)
Lemma syncEffect_online w q :
  read_queue w = Ok (VArr q) -> q <> [] ->
  let w' := mkWorld (<[pendingBookings := lit "[]"]> (storage w))
              (events w ++ [EGetItem pendingBookings;
                            EConsoleLog [VStr (lit "Syncing pending bookings:"); VArr q];
                            ESetItem pendingBookings (lit "[]")]) in
  syncEffect true w = (Ok tt, w') /\ read_queue w' = Ok (VArr []).
Proof.
  intros Hq Hne w'. split.
  - unfold syncEffect, bind, localStorage.getItem, lift. cbn [storage events].
    unfold read_queue in Hq. rewrite Hq. cbn [length_positive].
    rewrite bool_decide_true by exact Hne.
    unfold console.log, localStorage.setItem. cbn [storage events].
    rewrite <- !app_assoc. reflexivity.
  - unfold read_queue, w'. cbn [storage]. rewrite lookup_insert_eq. reflexivity.
Qed.

Lemma syncEffect_offline w : syncEffect false w = (Ok tt, w).
Proof. reflexivity. Qed.

(** *** The wizard's buttons *)

Lemma last_step : Z.of_nat (length STEPS) - 1 = 3.
Proof. reflexivity. Qed.

Lemma truthy_iff s : truthy s = true <-> s <> [].
Proof.
  unfold truthy. destruct (bool_decide_reflect (s = [])); cbn; split; congruence.
Qed.

Lemma advance_Some st :
  is_Some (advance st)
  <-> isSubmitted st = false /\ step st < 3 /\ canProceed st = true.
Proof.
  unfold advance. rewrite last_step.
  destruct (isSubmitted st), (Z.ltb_spec (step st) 3), (canProceed st); cbn;
    (split; [intros [x Hx]; try discriminate; auto
            | intros (H1 & H2 & H3); try discriminate; try lia; eauto]).
Qed.

Lemma canProceed_car st :
  step st = 0 -> canProceed st = truthy (carId (booking st)).
Proof. intros H. unfold canProceed. rewrite H. reflexivity. Qed.

Lemma canProceed_date_time st :
  step st = 2 ->
  canProceed st
  = bool_decide (is_Some (date (booking st))) && truthy (time (booking st))
    && (0 <? duration (booking st)).
Proof. intros H. unfold canProceed. rewrite H. reflexivity. Qed.

Lemma reachable_duration carParam st :
  reachable cars carParam st -> 1 <= duration (booking st) <= 24.
Proof.
  induction 1 as [| now st i st' _ IH Hstep]; [cbn; lia |].
  unfold react in Hstep. destruct (isSubmitted st); [discriminate |].
  destruct i;
    try (match type of Hstep with
         | (if ?c then _ else _) = _ => destruct c eqn:Hc; [| discriminate]
         end; injection Hstep as <-; cbn; try exact IH).
  - apply andb_true_iff in Hc as [_ Hi]. apply N.ltb_lt in Hi. lia.
  - unfold advance in Hstep.
    destruct (_ && _ && _); [| discriminate]. injection Hstep as <-. exact IH.
  - unfold retreat in Hstep.
    destruct (_ && _); [| discriminate]. injection Hstep as <-. exact IH.
Qed.


(** The drafts built on the page have their numbers in the model as soon
    as a day's rent of every car of the catalog is a safe integer. *)
Lemma reachable_numbers_in_model carParam st :
  Forall (fun car => is_safe (24 * Z.abs (Car.pricePerHour car)) = true) cars ->
  reachable cars carParam st -> numbers_in_model cars (booking st).
Proof.
  intros Hcat Hreach. apply reachable_duration in Hreach.
  unfold numbers_in_model, is_safe, MAX_SAFE_INTEGER.
  split; [apply andb_true_iff; split; apply Z.leb_le; lia |].
  unfold calculatePrice. destruct (selectedCar cars (booking st)) as [car |] eqn:E;
    [| reflexivity].
  unfold selectedCar in E. destruct (truthy _); [| discriminate].
  unfold getCarById in E. apply List.find_some in E as [Hin _].
  rewrite Forall_forall in Hcat. apply list_elem_of_In in Hin.
  specialize (Hcat car Hin). unfold is_safe, MAX_SAFE_INTEGER in Hcat.
  apply andb_true_iff in Hcat as [_ Hcat]. apply Z.leb_le in Hcat.
  apply andb_true_iff; split; apply Z.leb_le; nia.
Qed.

(** ** The claims *)

(** C1 (as amended).  A drain pass of the sync effect while online over a
    non-empty pending queue attempts no remote submission and waits for no
    acknowledgement: it reads the queue, passes the whole array to
    [console.log] and then replaces the stored queue by the empty array, so
    every record is removed in that pass.  While offline the effect does
    nothing. *)
Theorem drain_logs_then_clears_whole_queue w q :
  read_queue w = Ok (VArr q) -> q <> [] ->
  exists w',
    syncEffect true w = (Ok tt, w')
    /\ events w'
       = events w ++ [EGetItem pendingBookings;
                      EConsoleLog [VStr (lit "Syncing pending bookings:"); VArr q];
                      ESetItem pendingBookings (lit "[]")]
    /\ storage w' !! pendingBookings = Some (lit "[]")
    /\ read_queue w' = Ok (VArr [])
    /\ syncEffect false w = (Ok tt, w).
Proof.
  intros Hq Hne. destruct (syncEffect_online w q Hq Hne) as [Hrun Hafter].
  eexists. split; [exact Hrun |]. cbn [events storage].
  split; [reflexivity |]. split; [apply lookup_insert_eq |].
  split; [exact Hafter | apply syncEffect_offline].
Qed.

(** C2 (as amended).  A submit while online never consults the remote
    booking API: even when that service would reject the record,
    [handleSubmit] returns normally, reports no failure, sets
    [isSubmitted], keeps the draft, and leaves the store, and so the
    pending queue, as it was. *)
Theorem online_submit_ignores_remote_answer
  (remote : value -> RemoteResult) reason now st w :
  remote (bookingData cars toISOString now (booking st)) = Rejected reason ->
  exists st',
    handleSubmit cars toISOString true now st w = (Ok st', w)
    /\ isSubmitted st' = true
    /\ step st' = step st
    /\ booking st' = booking st.
Proof.
  intros _. exists (setIsSubmitted true st).
  rewrite handleSubmit_online. repeat split.
Qed.

(** C3.  A submit while offline appends exactly one record to the pending
    queue: the queue read back from the store is the former queue followed
    by an object whose properties are the draft's fields, the price
    computed from the catalog, and the time stamp [createdAt]; the wizard
    is then submitted, and the only interactions with the environment are
    one [getItem] and one [setItem] on the store.  For a car of hourly
    rate 20 and a duration of 3 the record carries duration 3 and
    price 60. *)
Theorem offline_submit_enqueues_one_record now st w q :
  read_queue w = Ok (VArr q) -> numbers_in_model cars (booking st) ->
  let b := booking st in
  exists st' w' record text,
    handleSubmit cars toISOString false now st w = (Ok st', w')
    /\ isSubmitted st' = true /\ booking st' = b
    /\ read_queue w' = Ok (VArr (q ++ [VObj record]))
    /\ events w'
       = events w ++ [EGetItem pendingBookings; ESetItem pendingBookings text]
    /\ read (lit "carId") record = VStr (carId b)
    /\ read (lit "pickupLocation") record = VStr (pickupLocation b)
    /\ read (lit "dropoffLocation") record = VStr (dropoffLocation b)
    /\ read (lit "date") record
       = match date b with
         | Some d => VStr (toISOString d)
         | None => VUndefined
         end
    /\ read (lit "time") record = VStr (time b)
    /\ read (lit "duration") record = VNum (duration b)
    /\ read (lit "price") record = VNum (calculatePrice cars b)
    /\ read (lit "createdAt") record = VStr (toISOString now)
    /\ (forall car,
          selectedCar cars b = Some car -> Car.pricePerHour car = 20 ->
          duration b = 3 ->
          read (lit "duration") record = VNum 3
          /\ read (lit "price") record = VNum 60).
Proof.
  intros Hq Hnum b.
  destruct (handleSubmit_offline now st w q Hq Hnum) as [Hrun Hafter].
  eexists _, _, (stored_props cars toISOString now b), _.
  split; [exact Hrun |]. cbn [isSubmitted booking setIsSubmitted events].
  split; [reflexivity |]. split; [reflexivity |]. split; [exact Hafter |].
  split; [reflexivity |].
  rewrite !stored_props_read. unfold bookingProps.
  repeat (split; [reflexivity |]).
  intros car Hcar Hrate Hd. unfold read. cbn [obj_get].
  repeat (rewrite decide_False by discriminate).
  rewrite !decide_True by reflexivity. cbn [default].
  unfold calculatePrice. rewrite Hcar, Hrate, Hd. split; reflexivity.
Qed.

(** C4 (as amended).  On the date-and-time step "Next" is enabled exactly
    when a date is set, a time is set and the duration is at least 1.
    Neither an upper bound on the duration nor a comparison of the date
    with the current day is part of that test; the duration selector is
    what keeps the duration of a draft built on the page at most 24. *)
Theorem advance_from_date_time st :
  step st = 2 -> isSubmitted st = false ->
  (is_Some (advance st)
   <-> is_Some (date (booking st)) /\ time (booking st) <> []
       /\ 1 <= duration (booking st))
  /\ (forall carParam,
        reachable cars carParam st -> duration (booking st) <= 24).
Proof.
  intros Hstep Hsub. split.
  - rewrite advance_Some, canProceed_date_time by exact Hstep.
    rewrite !andb_true_iff, truthy_iff, bool_decide_eq_true, Z.ltb_lt.
    split.
    + intros (_ & _ & (Hd & Ht) & Hn). repeat split; [exact Hd | exact Ht | lia].
    + intros (Hd & Ht & Hn).
      repeat split; [exact Hsub | lia | exact Hd | exact Ht | lia].
  - intros carParam H. apply reachable_duration in H. lia.
Qed.

(** C5 (as amended).  On the car step "Next" is enabled exactly when
    [carId] is a non-empty string; that it names a car of the catalog is
    not tested.  A [carId] chosen with a car button is the identifier of
    a catalog entry, but the page opened with any non-empty [car]
    parameter starts with that text as [carId] and with "Next" enabled. *)
Theorem advance_from_car_selection st :
  step st = 0 -> isSubmitted st = false ->
  (is_Some (advance st) <-> carId (booking st) <> [])
  /\ (forall now car st',
        react cars now st (ClickCar car) = Some st' ->
        car ∈ cars /\ carId (booking st') = Car.id car)
  /\ (forall text,
        text <> [] ->
        carId (booking (initial (Some text))) = text
        /\ is_Some (advance (initial (Some text)))).
Proof.
  intros Hstep Hsub. split; [| split].
  - rewrite advance_Some, canProceed_car by exact Hstep.
    rewrite truthy_iff. split; [tauto | intros H; repeat split; auto; lia].
  - intros now car st'. unfold react. rewrite Hsub.
    destruct (_ && _) eqn:E; [| discriminate]. intros H. injection H as <-.
    apply andb_true_iff in E as [_ E]. apply bool_decide_eq_true in E.
    split; [exact E | reflexivity].
  - intros text Htext. split; [reflexivity |].
    apply advance_Some. split; [reflexivity |]. split; [cbn; lia |].
    rewrite canProceed_car by reflexivity. apply truthy_iff. exact Htext.
Qed.


(** C7 (as amended).  The pending queue is kept in the order of
    enqueueing, not of the stamps: an offline submit puts its record after
    all records already queued, and each record carries the clock reading
    of its own submit as [createdAt], which nothing compares -- the two
    readings [now1] and [now2] are any two, also a second one that lies
    before the first.  A drain pass makes no attempt per record: after
    two offline submits it reads the queue, passes the whole array -- the
    former queue, then the first record, then the second -- to
    [console.log] once, and replaces the stored queue by the empty
    array. *)
Theorem queue_is_first_in_first_out now1 st1 now2 st2 w q :
  read_queue w = Ok (VArr q) ->
  numbers_in_model cars (booking st1) -> numbers_in_model cars (booking st2) ->
  let r1 := stored_record cars toISOString now1 (booking st1) in
  let r2 := stored_record cars toISOString now2 (booking st2) in
  exists w1 w2 w3,
    handleSubmit cars toISOString false now1 st1 w
    = (Ok (setIsSubmitted true st1), w1)
    /\ read_queue w1 = Ok (VArr (q ++ [r1]))
    /\ handleSubmit cars toISOString false now2 st2 w1
       = (Ok (setIsSubmitted true st2), w2)
    /\ read_queue w2 = Ok (VArr (q ++ [r1; r2]))
    /\ read (lit "createdAt") (stored_props cars toISOString now1 (booking st1))
       = VStr (toISOString now1)
    /\ read (lit "createdAt") (stored_props cars toISOString now2 (booking st2))
       = VStr (toISOString now2)
    /\ syncEffect true w2 = (Ok tt, w3)
    /\ events w3
       = events w2
         ++ [EGetItem pendingBookings;
             EConsoleLog [VStr (lit "Syncing pending bookings:");
                          VArr (q ++ [r1; r2])];
             ESetItem pendingBookings (lit "[]")]
    /\ read_queue w3 = Ok (VArr []).
Proof.
  intros Hq Hn1 Hn2 r1 r2.
  destruct (handleSubmit_offline now1 st1 w q Hq Hn1) as [Hrun1 Hq1].
  destruct (handleSubmit_offline now2 st2 _ _ Hq1 Hn2) as [Hrun2 Hq2].
  destruct (syncEffect_online _ _ Hq2) as [Hrun3 Hq3].
  { destruct q; discriminate. }
  assert (Eq : (q ++ [r1]) ++ [r2] = q ++ [r1; r2])
    by (rewrite <- app_assoc; reflexivity).
  eexists _, _, _.
  split; [exact Hrun1 |]. split; [exact Hq1 |].
  split; [exact Hrun2 |]. split; [rewrite Hq2; fold r1 r2; rewrite Eq; reflexivity |].
  split; [rewrite stored_props_read; reflexivity |].
  split; [rewrite stored_props_read; reflexivity |].
  split; [exact Hrun3 |].
  split; [| exact Hq3].
  cbn [events]. fold r1 r2. rewrite Eq. reflexivity.
Qed.

(** C8.  Writing a pending record with [JSON.stringify] and reading the
    text with [JSON.parse] gives an object on which every property reads
    as on the record: car, pick-up and drop-off places, the ISO text of
    the date (or [undefined] when no date was set), time, duration, price
    and the ISO text of the creation time.  A queue that was read from the
    store is read again unchanged after it has been written again. *)
Theorem pending_record_round_trip now b :
  numbers_in_model cars b ->
  exists text props,
    JSON.stringify (bookingData cars toISOString now b) = Some text
    /\ JSON.parse text = Ok (VObj props)
    /\ (forall k, read k props = read k (bookingProps cars toISOString now b))
    /\ read (lit "carId") props = VStr (carId b)
    /\ read (lit "pickupLocation") props = VStr (pickupLocation b)
    /\ read (lit "dropoffLocation") props = VStr (dropoffLocation b)
    /\ read (lit "date") props
       = match date b with
         | Some d => VStr (toISOString d)
         | None => VUndefined
         end
    /\ read (lit "time") props = VStr (time b)
    /\ read (lit "duration") props = VNum (duration b)
    /\ read (lit "price") props = VNum (calculatePrice cars b)
    /\ read (lit "createdAt") props = VStr (toISOString now)
    /\ (forall w q again,
          read_queue w = Ok (VArr q) ->
          JSON.stringify (VArr q) = Some again ->
          JSON.parse again = Ok (VArr q)).
Proof.
  intros Hnum.
  destruct (JSONFacts.wf_serialize _ (stored_record_wf now b Hnum)) as [text Et].
  exists text, (stored_props cars toISOString now b).
  split.
  { unfold JSON.stringify. rewrite <- Et.
    change (stored_record cars toISOString now b)
      with (drop_undefined (bookingData cars toISOString now b)).
    rewrite serialize_drop_undefined. reflexivity. }
  split.
  { apply JSONFacts.parse_stringify; [apply stored_record_wf; exact Hnum | exact Et]. }
  split; [intros k; apply stored_props_read |].
  rewrite !stored_props_read. unfold bookingProps.
  repeat (split; [reflexivity |]).
  intros w q again Hq Hagain. injection Hagain as <-.
  apply parse_queue_text. eapply read_queue_wf. exact Hq.
Qed.

(** C9.  In every state of the wizard after the first -- the steps after
    the car step; Submitted is the terminal state, behind which one does
    not go back -- "Previous" is available; it moves one step back and
    leaves every field of the draft as it was, and going forward again
    gives back the state one came from. *)
Theorem retreat_keeps_the_draft st :
  (isSubmitted st = true -> retreat st = None)
  /\ (isSubmitted st = false -> 0 < step st ->
      exists st',
        retreat st = Some st'
        /\ step st' = step st - 1
        /\ booking st' = booking st
        /\ isSubmitted st' = false
        /\ (step st <= 3 -> canProceed st' = true -> advance st' = Some st)).
Proof.
  split; [intros Hsub; unfold retreat; rewrite Hsub; reflexivity |].
  intros Hsub Hstep. exists (setStep (step st - 1) st).
  unfold retreat. rewrite Hsub. cbn [negb andb].
  replace (0 <? step st) with true by (symmetry; apply Z.ltb_lt; exact Hstep).
  repeat split; [exact Hsub |].
  intros Hle Hcan. unfold advance. rewrite last_step, Hcan.
  cbn [isSubmitted setStep step booking]. rewrite Hsub.
  replace (step st - 1 <? 3) with true by (symmetry; apply Z.ltb_lt; lia).
  cbn [negb andb]. destruct st as [n b s]. cbn in *. subst s.
  unfold setStep. cbn. do 2 f_equal. lia.
Qed.

(** C10.  A submit while online issues no remote call and no call of any
    other kind: [handleSubmit] leaves the store and the list of
    interactions exactly as they were, so the pending queue is unchanged,
    and it sets [isSubmitted] for every draft.  The record built from the
    draft is passed to nothing; only the draft itself stays in the
    component's state. *)
Theorem online_submit_hands_booking_to_nobody now st w :
  exists st',
    handleSubmit cars toISOString true now st w = (Ok st', w)
    /\ st' = setIsSubmitted true st
    /\ isSubmitted st' = true
    /\ (isSubmitted st = false -> 3 <= step st ->
        submit cars toISOString true now st
        = Some (handleSubmit cars toISOString true now st)).
Proof.
  exists (setIsSubmitted true st). rewrite handleSubmit_online.
  repeat split. intros Hsub Hstep. unfold submit. rewrite last_step, Hsub.
  replace (step st <? 3) with false by (symmetry; apply Z.ltb_ge; exact Hstep).
  reflexivity.
Qed.

End BookingFacts.

(** ** Concrete runs *)

Local Open Scope Z_scope.

Lemma two_queued_holds_both :
  read_queue two_queued = Ok (VArr [first_record; second_record]).
Proof. vm_compute. reflexivity. Qed.

(** Two records are queued and the remote service would reject any
    booking; the drain pass returns normally and the queue read back is
    empty: both records are gone without any acknowledgement. *)
Lemma drain_removes_unacknowledged_records :
  read_queue two_queued = Ok (VArr [first_record; second_record])
  /\ (forall record, exists reason, reject_all record = Rejected reason)
  /\ exists w',
       syncEffect true two_queued = (Ok tt, w')
       /\ read_queue w' = Ok (VArr [])
       /\ read_queue w' <> Ok (VArr [first_record; second_record]).
Proof.
  split; [exact two_queued_holds_both |].
  split; [intros record; eexists; reflexivity |].
  eexists. split; [vm_compute; reflexivity |].
  split; [vm_compute; reflexivity | vm_compute; discriminate].
Qed.

Lemma drain_logs_then_clears_whole_queue_witness :
  exists w',
    syncEffect true two_queued = (Ok tt, w')
    /\ read_queue w' = Ok (VArr []).
Proof.
  destruct (drain_logs_then_clears_whole_queue two_queued
              [first_record; second_record])
    as (w' & Hrun & _ & _ & Hq & _).
  - vm_compute. reflexivity.
  - discriminate.
  - exists w'. split; [exact Hrun | exact Hq].
Defined.

(** The remote service would reject the record, the page is online, and
    the submit returns normally with [isSubmitted] set. *)
Lemma online_submit_succeeds_despite_rejection :
  (exists reason,
      reject_all (bookingData demo_cars demo_iso 1800000000000 demo_draft)
      = Rejected reason)
  /\ handleSubmit demo_cars demo_iso true 1800000000000 demo_state empty_world
     = (Ok (mkState 3 demo_draft true), empty_world).
Proof. split; [eexists; reflexivity | reflexivity]. Qed.

Lemma online_submit_ignores_remote_answer_witness :
  exists st',
    handleSubmit demo_cars demo_iso true 1800000000000 demo_state empty_world
    = (Ok st', empty_world)
    /\ isSubmitted st' = true.
Proof.
  destruct (online_submit_ignores_remote_answer demo_cars demo_iso reject_all
              (lit "vehicle no longer available") 1800000000000 demo_state
              empty_world)
    as (st' & Hrun & Hsub & _).
  - reflexivity.
  - exists st'. split; [exact Hrun | exact Hsub].
Defined.

Lemma offline_submit_enqueues_one_record_witness :
  exists st' w' record,
    handleSubmit demo_cars demo_iso false 1800000000000 demo_state empty_world
    = (Ok st', w')
    /\ isSubmitted st' = true
    /\ read_queue w' = Ok (VArr [VObj record])
    /\ read (lit "carId") record = VStr (lit "v1")
    /\ read (lit "duration") record = VNum 3
    /\ read (lit "price") record = VNum 60.
Proof.
  destruct (offline_submit_enqueues_one_record demo_cars demo_iso 1800000000000
              demo_state empty_world [])
    as (st' & w' & record & text & Hrun & Hsub & _ & Hq & _ & Hcar & _ & _ & _
        & _ & _ & _ & _ & Hprice).
  - vm_compute. reflexivity.
  - split; reflexivity.
  - exists st', w', record.
    destruct (Hprice (Car.mk (lit "v1") (lit "Toyota RAV4") 20)) as [Hd Hp];
      [reflexivity | reflexivity | reflexivity |].
    repeat split; assumption.
Defined.

Lemma pending_record_round_trip_witness :
  exists text props,
    JSON.stringify (bookingData demo_cars demo_iso 1800000000000 demo_draft)
    = Some text
    /\ JSON.parse text = Ok (VObj props)
    /\ read (lit "duration") props = VNum 3
    /\ read (lit "price") props = VNum 60
    /\ read (lit "date") props = VStr (demo_iso 1900000000000)
    /\ read (lit "createdAt") props = VStr (demo_iso 1800000000000).
Proof.
  destruct (pending_record_round_trip demo_cars demo_iso 1800000000000 demo_draft)
    as (text & v & Hs & Hp & _ & _ & _ & _ & Hdate & _ & Hd & Hprice & Hc & _).
  - split; reflexivity.
  - exists text, v. repeat split; assumption.
Defined.

Lemma waiting_state_reachable :
  reachable demo_cars (Some (lit "v1")) waiting_state.
Proof.
  pose proof (reach_initial demo_cars (Some (lit "v1"))) as H.
  pose proof (reach_react _ _ 1800000000000 _ ClickNext _ H eq_refl) as H1.
  pose proof (reach_react _ _ 1800000000000 _ (TypePickup (lit "Kigali")) _ H1 eq_refl)
    as H2.
  pose proof (reach_react _ _ 1800000000000 _ (TypeDropoff (lit "Huye")) _ H2 eq_refl)
    as H3.
  pose proof (reach_react _ _ 1800000000000 _ ClickNext _ H3 eq_refl) as H4.
  pose proof (reach_react _ _ 1800000000000 _ (SelectDate (Some 1800050000000)) _
                H4 eq_refl) as H5.
  exact (reach_react _ _ 1800000000000 _ (SelectTime 9) _ H5 eq_refl).
Qed.

(** Two drafts on the date-and-time step on which "Next" is enabled and
    leads to the confirmation step: one with a duration of 25 hours and
    the date 1 January 1970; and one built on the page itself, whose day
    was still ahead when it was picked and lies more than a day behind
    the clock reading [later] at which "Next" is pressed. *)
Lemma next_enabled_for_25_hours_and_past_date :
  let b := mkBookingData (lit "v1") (lit "Kigali") (lit "Huye") (Some 0)
             (lit "09:00") 25 in
  let later := 1800400000000 in
  (step (mkState 2 b false) = 2
   /\ ~ (1 <= duration b <= 24)
   /\ (exists d, date b = Some d /\ d + 86400000 < later)
   /\ advance (mkState 2 b false) = Some (mkState 3 b false))
  /\ (reachable demo_cars (Some (lit "v1")) waiting_state
      /\ step waiting_state = 2
      /\ (exists d, date (booking waiting_state) = Some d /\ d + 86400000 < later)
      /\ advance waiting_state = Some (setStep 3 waiting_state)).
Proof.
  cbn zeta. split.
  - split; [reflexivity |]. split; [cbn; lia |].
    split; [exists 0; split; [reflexivity | lia] | reflexivity].
  - split; [exact waiting_state_reachable |]. split; [reflexivity |].
    split; [eexists; split; [reflexivity | lia] | reflexivity].
Qed.

Lemma advance_from_date_time_witness :
  is_Some (advance (mkState 2 demo_draft false))
  /\ duration demo_draft <= 24.
Proof.
  destruct (advance_from_date_time demo_cars (mkState 2 demo_draft false))
    as [Hiff Hmax]; [reflexivity | reflexivity |].
  split.
  - apply Hiff. repeat split; [eexists; reflexivity | discriminate | cbn; lia].
  - cbn. lia.
Defined.

(** The page opened with [?car=ghost]: the draft names no car of the
    catalog, and "Next" is enabled on the car step. *)
Lemma next_enabled_for_unknown_car :
  let st := initial (Some (lit "ghost")) in
  reachable demo_cars (Some (lit "ghost")) st
  /\ step st = 0
  /\ carId (booking st) = lit "ghost"
  /\ getCarById demo_cars (carId (booking st)) = None
  /\ Forall (fun car => Car.id car <> carId (booking st)) demo_cars
  /\ advance st = Some (setStep 1 st).
Proof.
  cbn zeta. split; [constructor |]. repeat split.
  repeat constructor; discriminate.
Qed.

Lemma advance_from_car_selection_witness :
  is_Some (advance (initial (Some (lit "v1")))).
Proof.
  destruct (advance_from_car_selection demo_cars (initial (Some (lit "v1"))))
    as (Hiff & _ & _); [reflexivity | reflexivity |].
  apply Hiff. discriminate.
Defined.


(** The clock is set back by a minute between two offline submits.  Both
    records are queued; the one stamped later stands first, and the drain
    pass, whose only dealing with the records is one [console.log] of the
    whole array, has it first as well: the record with the earlier
    [createdAt] is not handled before the one with the later. *)
Lemma later_stamp_drained_first :
  let late := stored_record demo_cars demo_iso 1800000060000 demo_draft in
  let early := stored_record demo_cars demo_iso 1800000000000 second_draft in
  let w1 :=
    snd (handleSubmit demo_cars demo_iso false 1800000060000 demo_state
           empty_world) in
  let w2 :=
    snd (handleSubmit demo_cars demo_iso false 1800000000000 second_state w1) in
  read_queue w2 = Ok (VArr [late; early])
  /\ read (lit "createdAt")
       (stored_props demo_cars demo_iso 1800000060000 demo_draft)
     = VStr (demo_iso 1800000060000)
  /\ read (lit "createdAt")
       (stored_props demo_cars demo_iso 1800000000000 second_draft)
     = VStr (demo_iso 1800000000000)
  /\ 1800000000000 < 1800000060000
  /\ syncEffect true w2
     = (Ok tt,
        mkWorld (<[pendingBookings := lit "[]"]> (storage w2))
          (events w2
           ++ [EGetItem pendingBookings;
               EConsoleLog [VStr (lit "Syncing pending bookings:");
                            VArr [late; early]];
               ESetItem pendingBookings (lit "[]")])).
Proof.
  cbn zeta. split; [vm_compute; reflexivity |].
  split; [vm_compute; reflexivity |].
  split; [vm_compute; reflexivity |].
  split; [lia |].
  apply syncEffect_online; [vm_compute; reflexivity | discriminate].
Qed.

Lemma queue_is_first_in_first_out_witness :
  exists w2 w3,
    read_queue w2 = Ok (VArr [first_record; second_record])
    /\ syncEffect true w2 = (Ok tt, w3)
    /\ events w3
       = events w2
         ++ [EGetItem pendingBookings;
             EConsoleLog [VStr (lit "Syncing pending bookings:");
                          VArr [first_record; second_record]];
             ESetItem pendingBookings (lit "[]")]
    /\ read_queue w3 = Ok (VArr []).
Proof.
  destruct (queue_is_first_in_first_out demo_cars demo_iso
              1800000000000 demo_state 1800000060000 second_state
              empty_world [])
    as (w1 & w2 & w3 & _ & _ & _ & Hq & _ & _ & Hrun & Hev & Hempty).
  - vm_compute. reflexivity.
  - split; reflexivity.
  - split; reflexivity.
  - exists w2, w3. repeat split; assumption.
Defined.

Lemma retreat_keeps_the_draft_witness :
  exists st',
    retreat demo_state = Some st'
    /\ step st' = 2
    /\ booking st' = demo_draft
    /\ advance st' = Some demo_state.
Proof.
  destruct (retreat_keeps_the_draft demo_state) as [_ H].
  destruct H as (st' & Hret & Hstep & Hb & _ & Hfwd); [reflexivity | reflexivity |].
  exists st'. repeat split; [exact Hret | exact Hstep | exact Hb |].
  apply Hfwd; [cbn; lia |].
  unfold retreat in Hret. cbn in Hret. injection Hret as <-. reflexivity.
Defined.

Lemma online_submit_hands_booking_to_nobody_witness :
  submit demo_cars demo_iso true 1800000000000 demo_state
  = Some (handleSubmit demo_cars demo_iso true 1800000000000 demo_state)
  /\ exists st',
       handleSubmit demo_cars demo_iso true 1800000000000 demo_state two_queued
       = (Ok st', two_queued)
       /\ isSubmitted st' = true.
Proof.
  destruct (online_submit_hands_booking_to_nobody demo_cars demo_iso
              1800000000000 demo_state two_queued)
    as (st' & Hrun & _ & Hsub & Hbutton).
  split; [apply Hbutton; [reflexivity | cbn; lia] |].
  exists st'. split; [exact Hrun | exact Hsub].
Defined.

(** * Further facts about the booking page *)

Section WizardFacts.

Variable cars : list Car.t.

Local Open Scope Z_scope.

Lemma react_inv now st i st' :
  react cars now st i = Some st' ->
  isSubmitted st = false /\ isSubmitted st' = false
  /\ ((i = ClickNext /\ advance st = Some st')
      \/ (i = ClickPrevious /\ retreat st = Some st')
      \/ (step st' = step st
          /\ ((step st = 0 /\ pickupLocation (booking st') = pickupLocation (booking st)
               /\ dropoffLocation (booking st') = dropoffLocation (booking st)
               /\ date (booking st') = date (booking st)
               /\ time (booking st') = time (booking st))
              \/ (step st = 1 /\ carId (booking st') = carId (booking st)
                  /\ date (booking st') = date (booking st)
                  /\ time (booking st') = time (booking st))
              \/ (step st = 2 /\ carId (booking st') = carId (booking st)
                  /\ pickupLocation (booking st') = pickupLocation (booking st)
                  /\ dropoffLocation (booking st') = dropoffLocation (booking st))))).
Proof.
  unfold react. destruct (isSubmitted st) eqn:Hs; [discriminate |].
  destruct i; intros H;
    try (match type of H with
         | (if ?c then _ else _) = _ => destruct c eqn:Hc; [| discriminate]
         end; injection H as <-; cbn [isSubmitted setBooking step booking];
         repeat (apply andb_true_iff in Hc as [Hc ?]);
         try apply Z.eqb_eq in Hc;
         (split; [reflexivity |]); (split; [exact Hs |]);
         right; right; (split; [reflexivity |]); cbn; tauto).
  - split; [reflexivity |]. split; [| auto].
    unfold advance in H. rewrite Hs in H.
    destruct (_ && _ && _); [| discriminate]. injection H as <-. exact Hs.
  - split; [reflexivity |]. split; [| auto].
    unfold retreat in H. rewrite Hs in H.
    destruct (_ && _); [| discriminate]. injection H as <-. exact Hs.
Qed.

Lemma react_keeps_steps_filled now st i st' :
  steps_filled st -> react cars now st i = Some st' -> steps_filled st'.
Proof.
  intros (Hrange & Hsub & H1 & H2 & H3) Hstep.
  destruct (react_inv now st i st' Hstep) as (_ & Hsub' & Hcase).
  unfold steps_filled. split; [| split; [exact Hsub' |]].
  - destruct Hcase as [[_ Ha] | [[_ Hr] | [He _]]].
    + assert (Hs : is_Some (advance st)) by (rewrite Ha; eauto).
      apply advance_Some in Hs as (_ & Hlt & _).
      unfold advance in Ha. destruct (_ && _ && _); [| discriminate].
      injection Ha as <-. cbn. lia.
    + unfold retreat in Hr. destruct (_ && (0 <? step st)) eqn:E; [| discriminate].
      apply andb_true_iff in E as [_ E]. apply Z.ltb_lt in E.
      injection Hr as <-. cbn. lia.
    + lia.
  - destruct Hcase as [[_ Ha] | [[_ Hr] | [He Hf]]].
    + assert (Hs : is_Some (advance st)) by (rewrite Ha; eauto).
      apply advance_Some in Hs as (_ & Hlt & Hcan).
      unfold advance in Ha. destruct (_ && _ && _); [| discriminate].
      injection Ha as <-. cbn [step booking setStep] in *.
      unfold canProceed in Hcan.
      destruct (Z.eqb_spec (step st) 0) as [E0 | N0].
      { apply truthy_iff in Hcan.
        split; [intros _; exact Hcan |]. split; intros; lia. }
      destruct (Z.eqb_spec (step st) 1) as [E1 | N1].
      { apply andb_true_iff in Hcan as [Hp Hd].
        apply truthy_iff in Hp, Hd.
        split; [intros _; apply H1; lia |].
        split; [intros _; split; assumption | intros; lia]. }
      destruct (Z.eqb_spec (step st) 2) as [E2 | N2]; [| lia].
      apply andb_true_iff in Hcan as [Hcan Hn].
      apply andb_true_iff in Hcan as [Hd Ht].
      apply bool_decide_eq_true in Hd. apply truthy_iff in Ht.
      apply Z.ltb_lt in Hn.
      split; [intros _; apply H1; lia |].
      split; [intros _; apply H2; lia |].
      intros _. split; [exact Hd |]. split; [exact Ht | lia].
    + unfold retreat in Hr. destruct (_ && (0 <? step st)) eqn:E; [| discriminate].
      injection Hr as <-. cbn [step booking setStep] in *.
      split; [intros; apply H1; lia |].
      split; [intros; apply H2; lia |]. intros; apply H3; lia.
    + rewrite He. destruct Hf as [Hf | [Hf | Hf]].
      * destruct Hf as (E & _). repeat split; intros; lia.
      * destruct Hf as (E & Ec & _). rewrite Ec.
        split; [exact H1 |]. split; intros; lia.
      * destruct Hf as (E & Ec & Ep & Ed). rewrite Ec, Ep, Ed.
        split; [exact H1 |]. split; [exact H2 |]. intros; lia.
Qed.

Lemma initial_steps_filled carParam : steps_filled (initial carParam).
Proof. unfold steps_filled. cbn. repeat split; try lia; intros; lia. Qed.

(** X1.  Whatever the user does on the wizard, the step stays between 0
    and 3, and the fields of every step already passed are filled: a car
    identifier after the first step, both places after the second, and a
    date, a time and a duration between 1 and 24 on the confirmation
    step. *)
Theorem wizard_keeps_passed_steps_filled carParam st :
  reachable cars carParam st ->
  0 <= step st <= 3
  /\ isSubmitted st = false
  /\ (1 <= step st -> carId (booking st) <> [])
  /\ (2 <= step st ->
      pickupLocation (booking st) <> [] /\ dropoffLocation (booking st) <> [])
  /\ (3 <= step st ->
      is_Some (date (booking st)) /\ time (booking st) <> []
      /\ 1 <= duration (booking st) <= 24).
Proof.
  intros Hreach.
  pose proof (reachable_duration cars carParam st Hreach) as Hdur.
  assert (Hfilled : steps_filled st).
  { clear Hdur. induction Hreach as [| now st i st' _ IH Hstep].
    - apply initial_steps_filled.
    - exact (react_keeps_steps_filled now st i st' IH Hstep). }
  destruct Hfilled as (Hrange & Hsub & H1 & H2 & H3).
  split; [exact Hrange |]. split; [exact Hsub |]. split; [exact H1 |].
  split; [exact H2 |].
  intros H. destruct (H3 H) as (Hd & Ht & _). split; [exact Hd |].
  split; [exact Ht | exact Hdur].
Qed.

End WizardFacts.

Section StoreFacts.

Variable cars : list Car.t.
Variable toISOString : Z -> list N.

Local Open Scope Z_scope.

(** **** [handleSubmit] and the sync effect on an arbitrary store *)

Lemma handleSubmit_cases online now st w :
  handleSubmit cars toISOString online now st w
  = if online then (Ok (setIsSubmitted true st), w)
    else
      let w1 := mkWorld (storage w) (events w ++ [EGetItem pendingBookings]) in
      match read_queue w with
      | Ok (VArr q) =>
          let text := queue_text (q ++ [bookingData cars toISOString now (booking st)]) in
          (Ok (setIsSubmitted true st),
           mkWorld (<[pendingBookings := text]> (storage w))
             (events w ++ [EGetItem pendingBookings; ESetItem pendingBookings text]))
      | Ok _ => (Throw TypeError, w1)
      | Throw e => (Throw e, w1)
      | Unmodelled => (Unmodelled, w1)
      end.
Proof.
  destruct online; [reflexivity |].
  unfold handleSubmit, bind, localStorage.getItem, lift, read_queue. cbn [negb].
  cbn [storage events].
  destruct (JSON.parse (or_empty_array (storage w !! pendingBookings)))
    as [[| | | | | q |] | e |]; try reflexivity.
  cbn [push]. unfold localStorage.setItem, ret. cbn [storage events].
  rewrite stringify_queue. cbn [default]. rewrite <- app_assoc. reflexivity.
Qed.

Lemma syncEffect_cases w :
  syncEffect true w
  = let w1 := mkWorld (storage w) (events w ++ [EGetItem pendingBookings]) in
    match read_queue w with
    | Ok pending =>
        match length_positive pending with
        | Ok true =>
            (Ok tt,
             mkWorld (<[pendingBookings := lit "[]"]> (storage w))
               (events w
                ++ [EGetItem pendingBookings;
                    EConsoleLog [VStr (lit "Syncing pending bookings:"); pending];
                    ESetItem pendingBookings (lit "[]")]))
        | Ok false => (Ok tt, w1)
        | Throw e => (Throw e, w1)
        | Unmodelled => (Unmodelled, w1)
        end
    | Throw e => (Throw e, w1)
    | Unmodelled => (Unmodelled, w1)
    end.
Proof.
  unfold syncEffect, bind, localStorage.getItem, lift, read_queue.
  cbn [storage events].
  destruct (JSON.parse (or_empty_array (storage w !! pendingBookings)))
    as [pending | e |]; try reflexivity.
  destruct (length_positive pending) as [[] | e |]; try reflexivity.
  unfold console.log, localStorage.setItem. cbn [storage events].
  rewrite <- !app_assoc. reflexivity.
Qed.

(** X2.  A submit made while offline on a store whose [pendingBookings]
    entry is not the text of a JSON array fails: it throws what
    [JSON.parse] threw, or a [TypeError] when the text denotes something
    that is not an array.  The store is only read, and since the handler
    does not return, [isSubmitted] is not set. *)
Theorem offline_submit_fails_on_broken_store now st w e :
  read_queue w = Throw e
  \/ (e = TypeError /\ exists v, read_queue w = Ok v /\ forall q, v <> VArr q) ->
  handleSubmit cars toISOString false now st w
  = (Throw e, mkWorld (storage w) (events w ++ [EGetItem pendingBookings])).
Proof.
  rewrite handleSubmit_cases. cbn zeta.
  intros [-> | (-> & v & -> & Hv)]; [reflexivity |].
  destruct v as [| | | | | q |]; try reflexivity.
  exfalso. exact (Hv q eq_refl).
Qed.

(** X3.  Neither [handleSubmit] nor the sync effect touches an entry of
    [localStorage] other than [pendingBookings], whether they return or
    throw. *)
Theorem other_storage_keys_are_untouched online now st w key :
  key <> pendingBookings ->
  storage (snd (handleSubmit cars toISOString online now st w)) !! key
  = storage w !! key
  /\ storage (snd (syncEffect online w)) !! key = storage w !! key.
Proof.
  intros Hkey. split.
  - rewrite handleSubmit_cases. destruct online; [reflexivity |]. cbn zeta.
    destruct (read_queue w) as [[| | | | | q |] | e |]; try reflexivity.
    cbn [snd storage]. apply lookup_insert_ne. congruence.
  - destruct online; [| reflexivity]. rewrite syncEffect_cases. cbn zeta.
    destruct (read_queue w) as [pending | e |]; try reflexivity.
    destruct (length_positive pending) as [[] | e |]; try reflexivity.
    cbn [snd storage]. apply lookup_insert_ne. congruence.
Qed.

(** X4.  Once [handleSubmit] has returned, online or offline, the wizard
    is over: no button and no field reacts any more, so one draft is
    submitted at most once. *)
Theorem nothing_reacts_after_submit online now st w st' w' :
  handleSubmit cars toISOString online now st w = (Ok st', w') ->
  st' = setIsSubmitted true st
  /\ advance st' = None
  /\ retreat st' = None
  /\ (forall online' now', submit cars toISOString online' now' st' = None)
  /\ (forall now' i, react cars now' st' i = None).
Proof.
  rewrite handleSubmit_cases. intros H.
  assert (E : st' = setIsSubmitted true st).
  { destruct online; [congruence |]. cbn zeta in H.
    destruct (read_queue w) as [[| | | | | q |] | e |]; congruence. }
  subst st'. repeat split.
Qed.

(** X5.  The sync effect writes the store only after it has logged the
    queue, and what it writes is the text of the empty array: in every
    other case, an exception included, the store is as it was. *)
Theorem sync_writes_only_the_empty_queue online w :
  fst (syncEffect online w) <> Unmodelled ->
  let w' := snd (syncEffect online w) in
  storage w' = storage w
  \/ (exists pending,
        read_queue w = Ok pending
        /\ syncEffect online w = (Ok tt, w')
        /\ storage w' = <[pendingBookings := lit "[]"]> (storage w)
        /\ events w'
           = events w
             ++ [EGetItem pendingBookings;
                 EConsoleLog [VStr (lit "Syncing pending bookings:"); pending];
                 ESetItem pendingBookings (lit "[]")]).
Proof.
  intros _. destruct online; [| left; reflexivity]. cbn zeta.
  rewrite syncEffect_cases. cbn zeta.
  destruct (read_queue w) as [pending | e |]; try (left; reflexivity).
  destruct (length_positive pending) as [[] | e |]; try (left; reflexivity).
  right. exists pending. repeat split.
Qed.

(** X6.  A second drain pass right after a first one finds nothing: it
    reads the store once, logs nothing and writes nothing, so no record is
    logged twice. *)
Theorem second_drain_finds_nothing w q :
  read_queue w = Ok (VArr q) ->
  let w1 := snd (syncEffect true w) in
  read_queue w1 = Ok (VArr [])
  /\ syncEffect true w1
     = (Ok tt, mkWorld (storage w1) (events w1 ++ [EGetItem pendingBookings])).
Proof.
  intros Hq. cbn zeta.
  assert (H1 : read_queue (snd (syncEffect true w)) = Ok (VArr [])).
  { destruct q as [| r q'].
    - rewrite syncEffect_cases. cbn zeta. rewrite Hq. cbn [length_positive].
      rewrite bool_decide_false by (intros H; apply H; reflexivity).
      cbn [snd]. exact Hq.
    - destruct (syncEffect_online w (r :: q') Hq) as [-> Hr]; [discriminate |].
      exact Hr. }
  split; [exact H1 |].
  rewrite (syncEffect_cases (snd (syncEffect true w))). cbn zeta. rewrite H1.
  cbn [length_positive].
  rewrite bool_decide_false by (intros H; apply H; reflexivity). reflexivity.
Qed.


(** X7.  When a draft built on the page is confirmed while offline, the
    record that enters the queue has all eight properties, in the order
    of the object literal, with a [date] that is the ISO text of the
    chosen day and no empty car, place or time. *)
Theorem page_built_record_is_complete carParam now st w q :
  Forall (fun car => is_safe (24 * Z.abs (Car.pricePerHour car)) = true) cars ->
  reachable cars carParam st -> step st = 3 ->
  read_queue w = Ok (VArr q) ->
  exists w' record d,
    submit cars toISOString false now st
    = Some (handleSubmit cars toISOString false now st)
    /\ handleSubmit cars toISOString false now st w
       = (Ok (setIsSubmitted true st), w')
    /\ read_queue w' = Ok (VArr (q ++ [VObj record]))
    /\ List.map fst record
       = [lit "carId"; lit "pickupLocation"; lit "dropoffLocation"; lit "date";
          lit "time"; lit "duration"; lit "price"; lit "createdAt"]
    /\ date (booking st) = Some d
    /\ read (lit "date") record = VStr (toISOString d)
    /\ carId (booking st) <> [] /\ pickupLocation (booking st) <> []
    /\ dropoffLocation (booking st) <> [] /\ time (booking st) <> []
    /\ 1 <= duration (booking st) <= 24.
Proof.
  intros Hcat Hreach Hstep Hq.
  pose proof (reachable_numbers_in_model cars carParam st Hcat Hreach) as Hnum.
  pose proof (reachable_duration cars carParam st Hreach) as Hn.
  assert (Hfilled : steps_filled st).
  { clear Hnum Hstep Hn. induction Hreach as [| now' st i st' _ IH Hreact].
    - apply initial_steps_filled.
    - exact (react_keeps_steps_filled cars now' st i st' IH Hreact). }
  destruct Hfilled as (_ & Hsub & H1 & H2 & H3).
  destruct H3 as ([d Hd] & Ht & _); [lia |].
  destruct H2 as [Hp Hdrop]; [lia |]. specialize (H1 ltac:(lia)).
  destruct (handleSubmit_offline cars toISOString now st w q Hq Hnum)
    as [Hrun Hafter].
  eexists _, (stored_props cars toISOString now (booking st)), d.
  split.
  { unfold submit. rewrite Hsub, Hstep. reflexivity. }
  split; [exact Hrun |]. split; [exact Hafter |].
  unfold stored_props, bookingProps, read. rewrite Hd.
  cbn [List.filter snd is_undefined negb List.map fst obj_get].
  repeat (rewrite decide_False by discriminate).
  rewrite decide_True by reflexivity.
  repeat split; assumption || lia.
Qed.

(** X8.  Submits made while offline pile up in order: after any number of
    them the queue is the former queue followed by one record per submit,
    in the order of the submits. *)
Theorem offline_submits_pile_up_in_order subs w q :
  read_queue w = Ok (VArr q) ->
  Forall (fun sub => numbers_in_model cars (booking (snd sub))) subs ->
  exists w',
    submit_all_offline cars toISOString subs w = (Ok tt, w')
    /\ read_queue w'
       = Ok (VArr (q ++ List.map
                          (fun sub => stored_record cars toISOString (fst sub)
                                        (booking (snd sub)))
                          subs)).
Proof.
  intros Hq Hall. revert w q Hq.
  induction Hall as [| [now st] rest Hsub _ IH]; intros w q Hq.
  - exists w. split; [reflexivity |]. cbn [List.map]. rewrite app_nil_r. exact Hq.
  - cbn [fst snd] in Hsub.
    destruct (handleSubmit_offline cars toISOString now st w q Hq Hsub)
      as [Hrun Hafter].
    destruct (IH _ _ Hafter) as (w' & Hrest & Hq').
    exists w'. cbn [submit_all_offline]. rewrite Hrun. split; [exact Hrest |].
    rewrite Hq'. cbn [List.map fst snd]. rewrite <- app_assoc. reflexivity.
Qed.

(** X9.  A draft whose [carId] names no car of the catalog has price 0,
    and that is the price of the record it leaves in the queue when it
    is submitted offline. *)
Theorem unknown_car_is_booked_for_nothing now st w q :
  (forall car, car ∈ cars -> Car.id car <> carId (booking st)) ->
  is_safe (duration (booking st)) = true ->
  read_queue w = Ok (VArr q) ->
  calculatePrice cars (booking st) = 0
  /\ exists w' record,
       handleSubmit cars toISOString false now st w
       = (Ok (setIsSubmitted true st), w')
       /\ read_queue w' = Ok (VArr (q ++ [VObj record]))
       /\ read (lit "carId") record = VStr (carId (booking st))
       /\ read (lit "price") record = VNum 0.
Proof.
  intros Hno Hd Hq.
  assert (Hp : calculatePrice cars (booking st) = 0).
  { unfold calculatePrice, selectedCar.
    destruct (truthy _); [| reflexivity].
    destruct (getCarById cars (carId (booking st))) as [car |] eqn:E;
      [| reflexivity].
    unfold getCarById in E. apply List.find_some in E as [Hin Hid].
    apply bool_decide_eq_true in Hid. apply list_elem_of_In in Hin.
    exfalso. exact (Hno car Hin Hid). }
  split; [exact Hp |].
  assert (Hnum : numbers_in_model cars (booking st))
    by (split; [exact Hd | rewrite Hp; reflexivity]).
  destruct (handleSubmit_offline cars toISOString now st w q Hq Hnum)
    as [Hrun Hafter].
  eexists _, (stored_props cars toISOString now (booking st)).
  split; [exact Hrun |]. split; [exact Hafter |].
  rewrite !stored_props_read. unfold bookingProps, read. cbn [obj_get].
  repeat (rewrite decide_False by discriminate).
  rewrite !decide_True by reflexivity. cbn [default]. rewrite Hp.
  split; reflexivity.
Qed.

End StoreFacts.

(** X17.  On the location step "Next" is enabled exactly when both places
    are non-empty texts.  The texts are not trimmed: a place made of
    white space only counts as filled. *)
Theorem advance_from_location st :
  step st = 1%Z -> isSubmitted st = false ->
  (is_Some (advance st)
   <-> pickupLocation (booking st) <> [] /\ dropoffLocation (booking st) <> [])
  /\ (forall blanks,
        blanks <> [] -> Str.trim blanks = [] ->
        pickupLocation (booking st) = blanks ->
        dropoffLocation (booking st) = blanks ->
        advance st = Some (setStep 2 st)).
Proof.
  intros Hstep Hsub.
  assert (Hcan : canProceed st
                 = truthy (pickupLocation (booking st))
                   && truthy (dropoffLocation (booking st)))
    by (unfold canProceed; rewrite Hstep; reflexivity).
  split.
  - rewrite advance_Some, Hcan, andb_true_iff, !truthy_iff.
    split; [tauto | intros H; repeat split; try tauto; lia].
  - intros blanks Hne _ Hp Hd. unfold advance.
    rewrite Hsub, Hcan, Hp, Hd, Hstep.
    replace (truthy blanks) with true by (symmetry; apply truthy_iff; exact Hne).
    reflexivity.
Qed.

Lemma advance_from_location_witness :
  advance (mkState 1 (mkBookingData (lit "v1") (lit "  ") (lit "  ") None [] 1)
             false)
  = Some (mkState 2 (mkBookingData (lit "v1") (lit "  ") (lit "  ") None [] 1)
            false).
Proof.
  destruct (advance_from_location
              (mkState 1 (mkBookingData (lit "v1") (lit "  ") (lit "  ") None [] 1)
                 false))
    as [_ H]; [reflexivity | reflexivity |].
  apply (H (lit "  ")); [discriminate | reflexivity | reflexivity | reflexivity].
Defined.

(** * The option lists of the selectors *)

Local Open Scope N_scope.

Lemma below_24 (P : N -> Prop) :
  (forall n, In n (List.map N.of_nat (seq 0 24)) -> P n) ->
  forall i, i < 24 -> P i.
Proof.
  intros H i Hi. apply H. apply in_map_iff. exists (N.to_nat i).
  split; [apply N2Nat.id | apply in_seq; lia].
Qed.

(** X10.  The time selector offers the hours 0 to 23 written with two
    digits and ":00" -- the model's [time_option] is
    [i.toString().padStart(2, '0')] followed by ":00" -- and these 24
    texts are non-empty and pairwise different. *)
Theorem time_options_are_padded_hours i :
  i < 24 ->
  time_option i = Str.padStart 2 48 (toString (Z.of_N i)) ++ lit ":00"
  /\ truthy (time_option i) = true
  /\ (forall j, j < 24 -> time_option j = time_option i -> j = i).
Proof.
  intros Hi. split; [| split].
  - revert i Hi. apply below_24. intros n Hn.
    cbn [List.map seq] in Hn.
    repeat (destruct Hn as [<- | Hn]; [vm_compute; reflexivity |]).
    destruct Hn.
  - reflexivity.
  - intros j Hj E. unfold time_option in E.
    injection E as E1 E2.
    pose proof (N.div_mod i 10 ltac:(lia)). pose proof (N.div_mod j 10 ltac:(lia)).
    lia.
Qed.

Lemma time_options_are_padded_hours_witness :
  time_option 7 = lit "07:00" /\ time_option 23 = lit "23:00".
Proof.
  destruct (time_options_are_padded_hours 7) as [E7 _]; [reflexivity |].
  destruct (time_options_are_padded_hours 23) as [E23 _]; [reflexivity |].
  rewrite E7, E23. split; reflexivity.
Defined.

Lemma is_space_digit c : 43 <= c <= 57 -> Str.is_space c = false.
Proof.
  intros H. unfold Str.is_space.
  repeat (apply orb_false_iff; split); try (apply N.eqb_neq; lia).
  apply andb_false_iff. left. apply N.leb_gt. lia.
Qed.

Lemma uint_units_lead p :
  exists c t, JSON.uint_units (Pos.to_uint p) = c :: t /\ 49 <= c <= 57.
Proof.
  pose proof (JSONFacts.to_uint_shape p) as Hs.
  destruct (Pos.to_uint p); try contradiction; cbn [JSON.uint_units];
    eexists _, _; (split; [reflexivity | lia]).
Qed.

Lemma dec_prefix_pos p : dec_prefix (JSON.uint_units (Pos.to_uint p)) = Some (Npos p).
Proof.
  unfold dec_prefix.
  pose proof (JSONFacts.read_digits_units (Pos.to_uint p) [] I) as E.
  rewrite app_nil_r in E. rewrite E. cbn [fst].
  pose proof (JSONFacts.to_uint_shape p) as Hs.
  unfold N.of_uint. rewrite <- (DecimalPos.Unsigned.of_to p).
  destruct (Pos.to_uint p); try contradiction; reflexivity.
Qed.

Lemma parseInt_digits c t :
  49 <= c <= 57 ->
  parseInt (c :: t)
  = match dec_prefix (c :: t) with
    | None => Ok None
    | Some n => if is_safe (Z.of_N n) then Ok (Some (Z.of_N n)) else Unmodelled
    end.
Proof.
  intros Hc. unfold parseInt. cbn [Str.trimStart].
  rewrite is_space_digit by lia.
  replace (c =? 45) with false by (symmetry; apply N.eqb_neq; lia).
  replace (c =? 43) with false by (symmetry; apply N.eqb_neq; lia).
  cbn [orb]. destruct t as [| x r]; [reflexivity |].
  replace (c =? 48) with false by (symmetry; apply N.eqb_neq; lia).
  reflexivity.
Qed.

Lemma parseInt_minus_digits c t :
  49 <= c <= 57 ->
  parseInt (45 :: c :: t)
  = match dec_prefix (c :: t) with
    | None => Ok None
    | Some n =>
        if n =? 0 then Unmodelled
        else if is_safe (- Z.of_N n) then Ok (Some (- Z.of_N n)%Z) else Unmodelled
    end.
Proof.
  intros Hc. unfold parseInt. cbn [Str.trimStart].
  change (Str.is_space 45) with false. cbv iota.
  change (45 =? 45) with true. cbn [orb andb]. destruct t as [| x r]; [reflexivity |].
  replace (c =? 48) with false by (symmetry; apply N.eqb_neq; lia).
  reflexivity.
Qed.

Lemma parseInt_toString z :
  is_safe z = true -> parseInt (toString z) = Ok (Some z).
Proof.
  intros Hz. unfold toString. destruct z as [| p | p]; cbn [JSON.number_text].
  - reflexivity.
  - destruct (uint_units_lead p) as (c & t & E & Hc).
    pose proof (dec_prefix_pos p) as Hp. rewrite E in *.
    rewrite parseInt_digits by exact Hc. rewrite Hp.
    change (Z.of_N (N.pos p)) with (Z.pos p). rewrite Hz. reflexivity.
  - destruct (uint_units_lead p) as (c & t & E & Hc).
    pose proof (dec_prefix_pos p) as Hp. rewrite E in *.
    rewrite parseInt_minus_digits by exact Hc. rewrite Hp.
    change (N.pos p =? 0) with false. cbv iota.
    change (- Z.of_N (N.pos p))%Z with (Z.neg p). rewrite Hz. reflexivity.
Qed.

(** X11.  The option values of the duration selector, the decimal texts
    of 1 to 24, are read back by [parseInt] as the numbers 1 to 24:
    choosing the [i]-th option sets the duration [i + 1], the value the
    model's [SelectDuration] stores. *)
Theorem duration_options_parse_back i :
  i < 24 ->
  parseInt (toString (Z.of_N i + 1)) = Ok (Some (Z.of_N i + 1)%Z)
  /\ (forall cars now st st',
        react cars now st (SelectDuration i) = Some st' ->
        parseInt (toString (Z.of_N i + 1)) = Ok (Some (duration (booking st')))).
Proof.
  intros Hi.
  assert (E : parseInt (toString (Z.of_N i + 1)) = Ok (Some (Z.of_N i + 1)%Z)).
  { apply parseInt_toString. unfold is_safe, MAX_SAFE_INTEGER.
    apply andb_true_iff. split; apply Z.leb_le; lia. }
  split; [exact E |].
  intros cars now st st'. unfold react. destruct (isSubmitted st); [discriminate |].
  destruct (_ && _); [| discriminate]. intros H. injection H as <-. exact E.
Qed.

Lemma duration_options_parse_back_witness :
  parseInt (lit "24") = Ok (Some 24%Z).
Proof.
  destruct (duration_options_parse_back 23) as [E _]; [reflexivity |].
  exact E.
Defined.

(** * The cars administration page *)

Module StrFacts.
Import Str.

Lemma trimStart_In c s : In c (trimStart s) -> In c s.
Proof.
  induction s as [| d r IH]; [trivial |]. cbn [trimStart].
  destruct (is_space d); [intros H; right; auto | trivial].
Qed.

Lemma trimStart_spaces sp s :
  Forall (fun c => is_space c = true) sp -> trimStart (sp ++ s) = trimStart s.
Proof.
  induction 1 as [| c sp Hc _ IH]; [reflexivity |].
  cbn [app trimStart]. rewrite Hc. exact IH.
Qed.

Lemma trimStart_decompose s :
  exists sp, s = sp ++ trimStart s /\ Forall (fun c => is_space c = true) sp.
Proof.
  induction s as [| c r (sp & E & Hsp)].
  - exists []. split; [reflexivity | constructor].
  - cbn [trimStart]. destruct (is_space c) eqn:Hc.
    + exists (c :: sp). split; [cbn; congruence | constructor; assumption].
    + exists []. split; [reflexivity | constructor].
Qed.

Lemma trimStart_clean s : starts_clean (trimStart s).
Proof.
  induction s as [| c r IH]; [exact I |]. cbn [trimStart].
  destruct (is_space c) eqn:Hc; [exact IH | exact Hc].
Qed.

Lemma starts_clean_fixed s : starts_clean s -> trimStart s = s.
Proof. destruct s as [| c r]; [reflexivity |]. cbn. intros ->. reflexivity. Qed.

Lemma starts_clean_app s t : s <> [] -> starts_clean (s ++ t) -> starts_clean s.
Proof. destruct s; [congruence | trivial]. Qed.

Lemma starts_clean_prefix s t : s <> [] -> starts_clean s -> starts_clean (s ++ t).
Proof. destruct s; [congruence | trivial]. Qed.

Lemma trimEnd_In c s : In c (trimEnd s) -> In c s.
Proof.
  unfold trimEnd. intros H. apply in_rev in H. apply trimStart_In in H.
  apply in_rev. exact H.
Qed.

Lemma trim_In c s : In c (trim s) -> In c s.
Proof. intros H. apply trimStart_In. apply trimEnd_In. exact H. Qed.

(** The two ends of a trimmed text. *)
Lemma trim_ends s : starts_clean (trim s) /\ starts_clean (rev (trim s)).
Proof.
  unfold trim, trimEnd. set (t := trimStart s).
  split.
  - destruct (trimStart_decompose (rev t)) as (sp & E & _).
    set (y := trimStart (rev t)) in *.
    assert (Et : t = rev y ++ rev sp).
    { rewrite <- rev_app_distr, <- E, rev_involutive. reflexivity. }
    destruct (rev y) as [| c r] eqn:Ey; [exact I |].
    pose proof (trimStart_clean s) as Hc. fold t in Hc. rewrite Et in Hc.
    exact Hc.
  - rewrite rev_involutive. apply trimStart_clean.
Qed.

Lemma trimEnd_fixed s : starts_clean (rev s) -> trimEnd s = s.
Proof.
  intros H. unfold trimEnd. rewrite starts_clean_fixed by exact H.
  apply rev_involutive.
Qed.

Lemma trim_fixed s : starts_clean s -> starts_clean (rev s) -> trim s = s.
Proof.
  intros H1 H2. unfold trim. rewrite starts_clean_fixed by exact H1.
  apply trimEnd_fixed. exact H2.
Qed.

Lemma trim_trim s : trim (trim s) = trim s.
Proof. destruct (trim_ends s). apply trim_fixed; assumption. Qed.

Lemma trim_spaces_before sp s :
  Forall (fun c => is_space c = true) sp -> trim (sp ++ s) = trim s.
Proof. intros H. unfold trim. rewrite trimStart_spaces by exact H. reflexivity. Qed.

Lemma split_not_nil sep s : split sep s <> [].
Proof.
  destruct s as [| c r]; cbn [split]; [discriminate |].
  destruct (c =? sep); [discriminate |]. destruct (split sep r); discriminate.
Qed.

Lemma split_without sep s : ~ In sep s -> split sep s = [s].
Proof.
  induction s as [| c r IH]; [reflexivity |]. intros H. cbn [split].
  destruct (N.eqb_spec c sep) as [-> | _]; [exfalso; apply H; left; reflexivity |].
  rewrite IH by (intros Hin; apply H; right; exact Hin). reflexivity.
Qed.

Lemma split_at sep s r :
  ~ In sep s -> split sep (s ++ sep :: r) = s :: split sep r.
Proof.
  induction s as [| c t IH]; intros H.
  - cbn [app split]. rewrite N.eqb_refl. reflexivity.
  - cbn [app split].
    destruct (N.eqb_spec c sep) as [-> | _]; [exfalso; apply H; left; reflexivity |].
    rewrite IH by (intros Hin; apply H; right; exact Hin). reflexivity.
Qed.

Lemma split_pieces sep s piece : In piece (split sep s) -> ~ In sep piece.
Proof.
  revert piece. induction s as [| c r IH]; intros piece.
  - cbn. intros [<- | []]. intros [].
  - cbn [split]. destruct (N.eqb_spec c sep) as [-> | Hne].
    + intros [<- | H]; [intros [] | apply IH; exact H].
    + pose proof (split_not_nil sep r) as Hnn.
      destruct (split sep r) as [| p ps]; [congruence |].
      intros [<- | H].
      * intros [E | Hin]; [congruence |]. apply (IH p); [left; reflexivity | exact Hin].
      * apply IH. right. exact H.
Qed.

End StrFacts.

Module CarsManagementFacts.
Import CarsManagement StrFacts.

Lemma clean_feature_ends f :
  clean_feature f -> Str.starts_clean f /\ Str.starts_clean (rev f).
Proof. intros (_ & _ & E). rewrite <- E. apply trim_ends. Qed.

Lemma trim_padded sp f :
  Forall (fun c => Str.is_space c = true) sp -> clean_feature f ->
  Str.trim (sp ++ f) = f.
Proof.
  intros Hsp Hf. rewrite trim_spaces_before by exact Hsp. apply Hf.
Qed.

Lemma spaces_without_comma sp :
  Forall (fun c => Str.is_space c = true) sp -> ~ In 44 sp.
Proof.
  induction 1 as [| c sp Hc _ IH]; [intros [] |].
  intros [E | H]; [subst c; discriminate | exact (IH H)].
Qed.

Lemma featuresArr_padded_join fs sp :
  fs <> [] -> Forall clean_feature fs ->
  Forall (fun c => Str.is_space c = true) sp ->
  featuresArr (sp ++ Str.join (lit ", ") fs) = fs.
Proof.
  intros Hne Hall. revert sp. induction Hall as [| f rest Hf Hrest IH]; [congruence |].
  intros sp Hsp. unfold featuresArr in *.
  assert (Hnc : ~ In 44 (sp ++ f)).
  { intros Hin. apply in_app_or in Hin as [Hin | Hin].
    - exact (spaces_without_comma sp Hsp Hin).
    - destruct Hf as (_ & Hc & _). exact (Hc Hin). }
  assert (Ht : truthy f = true) by (apply truthy_iff; apply Hf).
  destruct rest as [| g rest'].
  - cbn [Str.join]. rewrite split_without by exact Hnc.
    cbn [List.map List.filter]. rewrite trim_padded by assumption.
    rewrite Ht. reflexivity.
  - change (Str.join (lit ", ") (f :: g :: rest'))
      with (f ++ 44 :: [32] ++ Str.join (lit ", ") (g :: rest')).
    rewrite app_assoc. rewrite split_at by exact Hnc.
    cbn [List.map List.filter]. rewrite trim_padded by assumption.
    rewrite Ht. f_equal. apply IH; [discriminate |].
    constructor; [reflexivity | constructor].
Qed.

(** X12.  The features sent to the database are clean: however the text
    of the features field looks, none of the features made from it is
    empty, contains a comma or has white space at either end. *)
Theorem saved_features_are_clean text f :
  In f (featuresArr text) -> clean_feature f.
Proof.
  unfold featuresArr. intros H. apply filter_In in H as [H Ht].
  apply in_map_iff in H as (piece & <- & Hp).
  split; [apply truthy_iff; exact Ht |]. split.
  - intros Hin. apply trim_In in Hin. exact (split_pieces _ _ _ Hp Hin).
  - apply trim_trim.
Qed.

Lemma saved_features_are_clean_witness :
  clean_feature (lit "Bluetooth").
Proof.
  apply (saved_features_are_clean (lit " 4WD, Bluetooth ,,  , AC ")).
  vm_compute. right. left. reflexivity.
Defined.

Lemma featuresArr_join fs :
  Forall clean_feature fs -> featuresArr (Str.join (lit ", ") fs) = fs.
Proof.
  intros Hall. destruct fs as [| f rest]; [reflexivity |].
  apply (featuresArr_padded_join (f :: rest) []); [discriminate | exact Hall | constructor].
Qed.

(** X13.  Features survive an edit: the text that [handleEdit] puts in the
    features field for a list of clean features is split by [handleSave]
    into that same list; an empty list gives an empty field and comes
    back empty. *)
Theorem features_survive_edit car st fs :
  features car = Some fs -> Forall clean_feature fs ->
  form_features (form (handleEdit car st)) = Str.join (lit ", ") fs
  /\ featuresArr (form_features (form (handleEdit car st))) = fs.
Proof.
  intros Hf Hall. unfold handleEdit. cbn [form form_features]. rewrite Hf.
  cbn [option_map or_empty default].
  split; [reflexivity | apply featuresArr_join; exact Hall].
Qed.

Lemma clean_4WD : clean_feature (lit "4WD").
Proof. split; [discriminate |]. split; [vm_compute; intuition discriminate | reflexivity]. Qed.

Lemma clean_AC : clean_feature (lit "AC").
Proof. split; [discriminate |]. split; [vm_compute; intuition discriminate | reflexivity]. Qed.





Lemma handleSave_request_add f st :
  editId st = None ->
  handleSave_request (setForm f st)
  = if missing_fields f then None else Some (Insert (payload_of f)).
Proof.
  intros Hid. unfold handleSave_request, editing, setForm.
  cbn [form editId]. rewrite Hid. reflexivity.
Qed.

Lemma handleSave_unsuccessful message st :
  fst (handleSave (Some message) st) = st
  /\ ~ In (Call Select) (snd (handleSave (Some message) st)).
Proof.
  unfold handleSave.
  destruct (handleSave_request st) as [request |] eqn:Hreq; cbn.
  - split; [reflexivity |]. intros [H | [H | []]]; [| discriminate].
    injection H as ->. unfold handleSave_request in Hreq.
    destruct (missing_fields (form st)); [discriminate |].
    destruct (editing st); discriminate.
  - split; [reflexivity |]. unfold missing_toast.
    intros [H | []]. discriminate.
Qed.

(** X15.  Edit mode ends with the dialog.  Closing the dialog, like a save
    that went through, leaves the blank form and no car being edited,
    whatever car was open.  A save of the blank form sends nothing and
    shows the "Missing fields" toast; and whatever is entered into the
    form afterwards, a save from then on is never an update: once a name
    and a type are there, it is the insert of what the form holds.  A save
    whose call fails keeps the form, the car being edited and the open
    dialog, and asks for no new list of cars. *)
Theorem edit_mode_ends_with_the_dialog car st f error message :
  let editing_car := handleEdit car st in
  let closed := onOpenChange false editing_car in
  let reopened := onOpenChange true closed in
  (editId closed = None /\ form closed = emptyForm /\ open closed = false)
  /\ (missing_fields (form editing_car) = false ->
      fst (handleSave None editing_car) = closed)
  /\ handleSave error reopened = (reopened, [missing_toast])
  /\ (forall p i, handleSave_request (setForm f reopened) <> Some (Update p i))
  /\ (missing_fields f = false ->
      handleSave_request (setForm f reopened) = Some (Insert (payload_of f)))
  /\ fst (handleSave (Some message) editing_car) = editing_car
  /\ ~ In (Call Select) (snd (handleSave (Some message) editing_car)).
Proof.
  cbn zeta.
  split; [repeat split |].
  split.
  { intros Hfields. unfold handleSave, handleSave_request. rewrite Hfields.
    destruct (editing (handleEdit car st)); reflexivity. }
  split; [reflexivity |].
  split.
  { intros p i. rewrite handleSave_request_add by reflexivity.
    destruct (missing_fields f); discriminate. }
  split.
  { intros Hfields. rewrite handleSave_request_add by reflexivity.
    rewrite Hfields. reflexivity. }
  apply handleSave_unsuccessful.
Qed.

(** X16.  The seats field never yields 0: an empty or non-numeric entry
    and the entry 0 give 5, and the decimal text of any other safe
    integer gives that integer. *)
Theorem seats_fall_back_to_five text z :
  seats_of text <> Ok 0%Z
  /\ seats_of [] = Ok 5%Z
  /\ (parseInt text = Ok None -> seats_of text = Ok 5%Z)
  /\ (is_safe z = true ->
      seats_of (toString z) = Ok (if (z =? 0)%Z then 5%Z else z)).
Proof.
  split; [| split; [reflexivity | split]].
  - unfold seats_of. destruct (parseInt text) as [[x |] | e |]; try discriminate.
    destruct (Z.eqb_spec x 0); [discriminate | congruence].
  - unfold seats_of. intros ->. reflexivity.
  - intros Hz. unfold seats_of. rewrite parseInt_toString by exact Hz.
    destruct (z =? 0)%Z; reflexivity.
Qed.

Lemma seats_fall_back_to_five_witness :
  seats_of (lit "7") = Ok 7%Z /\ seats_of (lit "seven") = Ok 5%Z.
Proof.
  destruct (seats_fall_back_to_five (lit "seven") 7) as (_ & _ & Hnan & Hz).
  split; [apply Hz; reflexivity | apply Hnan; reflexivity].
Defined.

End CarsManagementFacts.

(** * Concrete runs of the further facts *)

Local Open Scope Z_scope.

Lemma confirming_state_reachable :
  reachable demo_cars (Some (lit "v1")) confirming_state.
Proof.
  exact (reach_react _ _ 1800400000000 _ ClickNext _ waiting_state_reachable eq_refl).
Qed.

Lemma demo_cars_rent_is_safe :
  Forall (fun car => is_safe (24 * Z.abs (Car.pricePerHour car)) = true) demo_cars.
Proof. repeat constructor. Qed.

Lemma wizard_keeps_passed_steps_filled_witness :
  step confirming_state = 3
  /\ carId (booking confirming_state) <> []
  /\ is_Some (date (booking confirming_state)).
Proof.
  destruct (wizard_keeps_passed_steps_filled demo_cars (Some (lit "v1"))
              confirming_state confirming_state_reachable)
    as (_ & _ & H1 & _ & H3).
  split; [reflexivity |]. split; [apply H1; cbn; lia |].
  apply H3. cbn. lia.
Defined.

Lemma offline_submit_fails_on_broken_store_witness :
  handleSubmit demo_cars demo_iso false 1800000000000 demo_state garbled_world
  = (Throw SyntaxError,
     mkWorld (storage garbled_world) [EGetItem pendingBookings])
  /\ handleSubmit demo_cars demo_iso false 1800000000000 demo_state object_world
     = (Throw TypeError,
        mkWorld (storage object_world) [EGetItem pendingBookings]).
Proof.
  split.
  - apply (offline_submit_fails_on_broken_store demo_cars demo_iso
             1800000000000 demo_state garbled_world SyntaxError).
    left. vm_compute. reflexivity.
  - apply (offline_submit_fails_on_broken_store demo_cars demo_iso
             1800000000000 demo_state object_world TypeError).
    right. split; [reflexivity |]. exists (VObj []).
    split; [vm_compute; reflexivity | discriminate].
Defined.

Lemma sync_writes_only_the_empty_queue_witness :
  storage (snd (syncEffect true garbled_world)) = storage garbled_world
  /\ storage (snd (syncEffect true two_queued)) !! pendingBookings
     = Some (lit "[]").
Proof.
  destruct (sync_writes_only_the_empty_queue true garbled_world) as [H1 | H1];
    [vm_compute; discriminate | |].
  2: { destruct H1 as (pending & Hq & _). vm_compute in Hq. discriminate. }
  destruct (sync_writes_only_the_empty_queue true two_queued) as [H2 | H2];
    [vm_compute; discriminate | |].
  - split; [exact H1 |]. vm_compute. reflexivity.
  - destruct H2 as (pending & _ & _ & -> & _).
    split; [exact H1 | apply lookup_insert_eq].
Defined.

Lemma other_storage_keys_are_untouched_witness :
  storage (snd (syncEffect true two_queued)) !! lit "theme"
  = storage two_queued !! lit "theme".
Proof.
  destruct (other_storage_keys_are_untouched demo_cars demo_iso true
              1800000000000 demo_state two_queued (lit "theme"))
    as [_ H]; [discriminate | exact H].
Defined.

Lemma nothing_reacts_after_submit_witness :
  react demo_cars 1800000000000 (mkState 3 demo_draft true) ClickPrevious = None.
Proof.
  destruct (nothing_reacts_after_submit demo_cars demo_iso true 1800000000000
              demo_state empty_world (mkState 3 demo_draft true) empty_world)
    as (_ & _ & _ & _ & H); [reflexivity |].
  apply H.
Defined.

Lemma second_drain_finds_nothing_witness :
  read_queue (snd (syncEffect true two_queued)) = Ok (VArr []).
Proof.
  destruct (second_drain_finds_nothing two_queued [first_record; second_record])
    as [H _]; [vm_compute; reflexivity | exact H].
Defined.

Lemma page_built_record_is_complete_witness :
  exists w' record,
    handleSubmit demo_cars demo_iso false 1800400000000 confirming_state
      empty_world
    = (Ok (setIsSubmitted true confirming_state), w')
    /\ read_queue w' = Ok (VArr [VObj record])
    /\ read (lit "date") record = VStr (demo_iso 1800050000000).
Proof.
  destruct (page_built_record_is_complete demo_cars demo_iso (Some (lit "v1"))
              1800400000000 confirming_state empty_world []
              demo_cars_rent_is_safe confirming_state_reachable)
    as (w' & record & d & _ & Hrun & Hq & _ & Hd & Hdate & _);
    [reflexivity | vm_compute; reflexivity |].
  exists w', record. split; [exact Hrun |]. split; [exact Hq |].
  rewrite Hdate. cbn in Hd. injection Hd as <-. reflexivity.
Defined.

Lemma offline_submits_pile_up_in_order_witness :
  exists w',
    submit_all_offline demo_cars demo_iso
      [(1800000000000, demo_state); (1800000060000, second_state)] empty_world
    = (Ok tt, w')
    /\ read_queue w' = Ok (VArr [first_record; second_record]).
Proof.
  destruct (offline_submits_pile_up_in_order demo_cars demo_iso
              [(1800000000000, demo_state); (1800000060000, second_state)]
              empty_world [])
    as (w' & Hrun & Hq).
  - vm_compute. reflexivity.
  - repeat constructor.
  - exists w'. split; [exact Hrun | exact Hq].
Defined.

Lemma unknown_car_is_booked_for_nothing_witness :
  exists w' record,
    handleSubmit demo_cars demo_iso false 1800000000000 ghost_state empty_world
    = (Ok (setIsSubmitted true ghost_state), w')
    /\ read_queue w' = Ok (VArr [VObj record])
    /\ read (lit "carId") record = VStr (lit "ghost")
    /\ read (lit "price") record = VNum 0.
Proof.
  destruct (unknown_car_is_booked_for_nothing demo_cars demo_iso 1800000000000
              ghost_state empty_world [])
    as (_ & w' & record & Hrun & Hq & Hcar & Hprice).
  - intros car Hin.
    apply list_elem_of_In in Hin. cbn in Hin.
    destruct Hin as [<- | [<- | []]]; discriminate.
  - reflexivity.
  - vm_compute. reflexivity.
  - exists w', record. repeat split; assumption.
Defined.


Lemma edit_mode_ends_with_the_dialog_witness :
  let typed :=
    CarsManagement.entries
      [(CarsManagement.FName, lit "Kia Rio"); (CarsManagement.FType, lit "Sedan")]
      CarsManagement.emptyForm in
  CarsManagement.handleSave_request
    (CarsManagement.setForm typed
       (CarsManagement.onOpenChange true
          (CarsManagement.onOpenChange false
             (CarsManagement.handleEdit demo_row CarsManagement.initial))))
  = Some (CarsManagement.Insert (CarsManagement.payload_of typed))
  /\ fst (CarsManagement.handleSave None
            (CarsManagement.handleEdit demo_row CarsManagement.initial))
     = CarsManagement.onOpenChange false
         (CarsManagement.handleEdit demo_row CarsManagement.initial).
Proof.
  intros typed.
  destruct (CarsManagementFacts.edit_mode_ends_with_the_dialog demo_row
              CarsManagement.initial typed None [])
    as (_ & Hsaved & _ & _ & Hinsert & _).
  split; [apply Hinsert; reflexivity | apply Hsaved; reflexivity].
Defined.

Lemma features_survive_edit_witness :
  CarsManagement.form_features
    (CarsManagement.form (CarsManagement.handleEdit demo_row CarsManagement.initial))
  = lit "4WD, AC"
  /\ CarsManagement.featuresArr (lit "4WD, AC") = [lit "4WD"; lit "AC"].
Proof.
  destruct (CarsManagementFacts.features_survive_edit demo_row
              CarsManagement.initial [lit "4WD"; lit "AC"])
    as (Htext & Hback).
  - reflexivity.
  - constructor; [exact CarsManagementFacts.clean_4WD |].
    constructor; [exact CarsManagementFacts.clean_AC | constructor].
  - split; [exact Htext | exact Hback].
Defined.
